(** * The code runner of GitGud: [src/code_runner/server.js]

    A shallow embedding of the Express handler of [POST /execute] and of the
    Node primitives it calls, followed by the properties of the execution
    engine that the specification states about it.

    Layout: JavaScript strings and values; [path.join]; the file system with
    [writeFileSync], [existsSync], [unlinkSync]; [child_process.exec]; the
    handler and its callback; the server as a transition system over
    requests and child exits; the theorems. *)

From Stdlib Require Import String Ascii NArith ZArith List Lia.
From stdpp Require Import base option list gmap.

Local Open Scope N_scope.

(** ** JavaScript strings

    A JavaScript string is a sequence of UTF-16 code units. *)

Abbreviation jsstring := (list N).

(** A string literal of the source, which only has ASCII literals. *)
Definition lit (s : string) : jsstring :=
  N_of_ascii <$> list_ascii_of_string s.
Arguments lit s%_string.

(** [WhiteSpace] and [LineTerminator] of ECMAScript, the code units that
    [String.prototype.trim] strips: TAB, LF, VT, FF, CR, SP, NBSP, the
    category Zs (U+1680, U+2000 to U+200A, U+202F, U+205F, U+3000), LS, PS
    and the byte order mark. *)
Definition is_white_space (c : N) : bool :=
  ((9 <=? c) && (c <=? 13))
  || (c =? 32) || (c =? 160) || (c =? 5760)
  || ((8192 <=? c) && (c <=? 8202))
  || (c =? 8232) || (c =? 8233) || (c =? 8239) || (c =? 8287)
  || (c =? 12288) || (c =? 65279).

Fixpoint trimStart (s : jsstring) : jsstring :=
  match s with
  | [] => []
  | c :: s' => if is_white_space c then trimStart s' else s
  end.

Definition trimEnd (s : jsstring) : jsstring :=
  reverse (trimStart (reverse s)).

(** [String.prototype.trim]: white space goes from both ends. *)
Definition trim (s : jsstring) : jsstring := trimEnd (trimStart s).

(** ** JavaScript values

    What a field of the parsed JSON body can be, or [undefined] when the
    field is absent.  The handler looks inside strings only, so objects and
    arrays are one opaque constructor. *)
Inductive jsval :=
  | JUndefined
  | JNull
  | JBool (b : bool)
  | JNumber (n : Z)
  | JString (s : jsstring)
  | JObject.

#[global] Instance jsval_eq_dec : EqDecision jsval.
Proof. solve_decision. Defined.

(** [v === "s"] for a string literal: no coercion, a non-string is never
    equal to a string. *)
Definition strict_eq_lit (v : jsval) (s : string) : bool :=
  match v with
  | JString t => bool_decide (t = lit s)
  | _ => false
  end.
Arguments strict_eq_lit v s%_string.

(** ** [path.join] (POSIX)

    [path.join] glues its non-empty arguments with a slash and normalizes
    the result: empty and [.] segments are dropped, [..] removes the
    segment before it. *)

Definition slash : N := 47.

Fixpoint split_slash (s : jsstring) : list jsstring :=
  match s with
  | [] => [[]]
  | c :: s' =>
      if c =? slash then [] :: split_slash s'
      else match split_slash s' with
           | seg :: segs => (c :: seg) :: segs
           | [] => [[c]]
           end
  end.

Fixpoint join_slash (segs : list jsstring) : jsstring :=
  match segs with
  | [] => []
  | [s] => s
  | s :: rest => s ++ slash :: join_slash rest
  end.

(** One step of Node's [normalizeString]; [res] holds the segments kept so
    far, the last one first. *)
Definition push_segment (allowAboveRoot : bool)
    (res : list jsstring) (seg : jsstring) : list jsstring :=
  if decide (seg = []) then res
  else if decide (seg = lit ".") then res
  else if decide (seg = lit "..") then
    match res with
    | last :: rest =>
        if decide (last = lit "..")
        then (if allowAboveRoot then seg :: res else res)
        else rest
    | [] => if allowAboveRoot then [seg] else []
    end
  else seg :: res.

Definition normalizeString (path : jsstring) (allowAboveRoot : bool) : jsstring :=
  join_slash
    (reverse (fold_left (push_segment allowAboveRoot) (split_slash path) [])).

Definition normalize (path : jsstring) : jsstring :=
  match path with
  | [] => lit "."
  | c :: _ =>
      let isAbsolute := c =? slash in
      let trailingSeparator := bool_decide (last path = Some slash) in
      let p := normalizeString path (negb isAbsolute) in
      match p with
      | [] => if isAbsolute then lit "/"
              else if trailingSeparator then lit "./" else lit "."
      | _ => (if isAbsolute then [slash] else [])
             ++ p ++ (if trailingSeparator then [slash] else [])
      end
  end.

Definition path_join (a b : jsstring) : jsstring :=
  match filter (λ s, s ≠ []) [a; b] with
  | [] => lit "."
  | parts => normalize (join_slash parts)
  end.

(** A plain file name: a single segment that normalization keeps. *)
Definition plain (b : jsstring) : Prop :=
  b ≠ [] ∧ (slash ∉ b) ∧ b ≠ lit "." ∧ b ≠ lit "..".

(** What [path.join a] puts in front of a plain name. *)
Definition join_dirs (segs : list jsstring) : jsstring :=
  concat ((λ seg, seg ++ [slash]) <$> segs).

Definition join_prefix (a : jsstring) : jsstring :=
  match a with
  | [] => []
  | c :: _ =>
      (if c =? slash then [slash] else [])
      ++ join_dirs (reverse (fold_left (push_segment (negb (c =? slash)))
                                       (split_slash a) []))
  end.

(** ** The file system

    Regular files with their contents, and directories.  The handler only
    writes inside [tempDir], which the server creates when it starts and
    never removes; a write into a missing directory is not modelled. *)

Record filesystem := {
  files : gmap (list N) (list N);
  dirs : gset (list N);
}.

Definition empty_fs : filesystem := {| files := ∅; dirs := ∅ |}.

Inductive js_error :=
  | ERR_INVALID_ARG_TYPE      (* TypeError: data is not a string or a buffer *)
  | ENOENT (path : jsstring)
  | EISDIR (path : jsstring)
  | EEXIST (path : jsstring).

(** Code that reads and writes the file system and may throw.  What was
    written before a throw stays written. *)
Definition js (A : Type) : Type := filesystem → filesystem * (js_error + A).

Definition js_ret {A} (a : A) : js A := λ fs, (fs, inr a).
Definition js_throw {A} (e : js_error) : js A := λ fs, (fs, inl e).
Definition js_bind {A B} (m : js A) (k : A → js B) : js B :=
  λ fs, match m fs with
        | (fs', inr a) => k a fs'
        | (fs', inl e) => (fs', inl e)
        end.

Notation "'do' x <- m ; k" := (js_bind m (λ x, k))
  (at level 20, x name, m at level 100, k at level 200).
Notation "m ;; k" := (js_bind m (λ _, k))
  (at level 100, k at level 200, right associativity).

Definition existsSync (p : jsstring) : js bool :=
  λ fs, (fs, inr (bool_decide (is_Some (files fs !! p)) || bool_decide (p ∈ dirs fs))).

Definition mkdirSync (p : jsstring) : js unit :=
  λ fs, if bool_decide (is_Some (files fs !! p)) || bool_decide (p ∈ dirs fs)
        then (fs, inl (EEXIST p))
        else ({| files := files fs; dirs := {[p]} ∪ dirs fs |}, inr ()).

(** [fs.writeFileSync(file, data)] of Node 14 and later (the image is
    [node:20-slim]): [data] that is neither a string nor a buffer is
    refused with a [TypeError] before the file is opened. *)
Definition writeFileSync (p : jsstring) (data : jsval) : js unit :=
  match data with
  | JString s =>
      λ fs, if bool_decide (p ∈ dirs fs) then (fs, inl (EISDIR p))
            else ({| files := <[p := s]> (files fs); dirs := dirs fs |}, inr ())
  | _ => js_throw ERR_INVALID_ARG_TYPE
  end.

Definition unlinkSync (p : jsstring) : js unit :=
  λ fs, match files fs !! p with
        | Some _ => ({| files := delete p (files fs); dirs := dirs fs |}, inr ())
        | None => if bool_decide (p ∈ dirs fs) then (fs, inl (EISDIR p))
                  else (fs, inl (ENOENT p))
        end.

(** ** [child_process.exec]

    [exec(command, callback)] starts a shell and has it run [command]: the
    child is [/bin/sh -c command].  The options are optional; [timeout]
    defaults to 0, which means the child is never killed for running long.
    The callback gets the error ([null] when the shell exits with 0), and
    the collected standard output and error as strings. *)

Definition exec_argv (command : jsstring) : list jsstring :=
  [lit "/bin/sh"; lit "-c"; command].

Record exec_options := { timeout : N }.
Definition default_exec_options : exec_options := {| timeout := 0 |}.

Inductive exec_error :=
  | ExitCode (n : N)          (* the shell exited with a code other than 0 *)
  | Killed.                   (* the shell was ended by a signal *)

Record exec_result := {
  error : option exec_error;
  stdout : jsstring;
  stderr : jsstring;
}.

(** ** The HTTP exchange *)

Record request := { language : jsval; code : jsval }.

Inductive json_body :=
  | ErrorBody (msg : jsstring)        (* { error: msg } *)
  | StringBody (s : jsstring)         (* a JSON string *)
  | OutputBody (result : bool)        (* { output: result } *)
  | ErrorPage.                        (* the page of Express's own error handler *)

Record response := { status : N; body : json_body }.

(** What the handler has done when it returns to Express. *)
Inductive handler_result :=
  | Returned (res : response)
  | ExecCalled (command : jsstring) (options : exec_options)
               (filename : jsstring) (executable : option jsstring).

Section Server.

(** The directory of [server.js], an absolute normalized path. *)
Variable __dirname : jsstring.

Definition tempDir : jsstring := path_join __dirname (lit "temp").

(** Lines 10 to 12, run once when the server starts. *)
Definition startup : js unit :=
  do present <- existsSync tempDir;
  if negb present then mkdirSync tempDir else js_ret ().

(** Lines 14 to 45: the body of the handler up to the call of [exec]. *)
Definition execute_handler (req : request) : js handler_result :=
  let language := language req in
  let code := code req in
  if strict_eq_lit language "python" then
    let filename := path_join tempDir (lit "temp.py") in
    writeFileSync filename code ;;
    let command := lit "python3 " ++ filename in
    js_ret (ExecCalled command default_exec_options filename None)
  else if strict_eq_lit language "c" || strict_eq_lit language "c++" then
    let extension := if strict_eq_lit language "c" then lit "c" else lit "cpp" in
    let filename := path_join tempDir (lit "temp." ++ extension) in
    let executable := path_join tempDir (lit "temp_executable") in
    writeFileSync filename code ;;
    let command :=
      lit "g++ " ++ filename ++ lit " -o " ++ executable
        ++ lit " && " ++ executable in
    js_ret (ExecCalled command default_exec_options filename (Some executable))
  else if strict_eq_lit language "java" then
    let filename := path_join tempDir (lit "Temp.java") in
    writeFileSync filename code ;;
    let command :=
      lit "javac " ++ filename ++ lit " && java -cp " ++ tempDir ++ lit " Temp" in
    js_ret (ExecCalled command default_exec_options filename None)
  else
    js_ret (Returned {| status := 400;
                        body := ErrorBody (lit "Unsupported language") |}).

(** Lines 45 to 57: the callback of [exec], with the [filename] and
    [executable] of the request that made the call. *)
Definition exec_callback (filename : jsstring) (executable : option jsstring)
    (r : exec_result) : js response :=
  unlinkSync filename ;;
  match executable with
  | Some exe =>
      (* [executable && fs.existsSync(executable)]: an empty string is falsy *)
      if bool_decide (exe = []) then js_ret ()
      else do present <- existsSync exe;
           if present then unlinkSync exe else js_ret ()
  | None => js_ret ()
  end ;;
  match error r with
  | Some _ => js_ret {| status := 500; body := StringBody (stderr r) |}
  | None =>
      let output := trim (stdout r) in
      let result := bool_decide (output = lit "true") in
      js_ret {| status := 200; body := OutputBody result |}
  end.

(** ** The server as a transition system

    Node runs the handler and every callback to completion, one at a time.
    Between them the children run: they write files, time passes, they
    exit.  A request that has called [exec] stays in flight, with the
    variables its callback closes over, until its child exits. *)

Record pending := {
  id : nat;
  req : request;
  filename : jsstring;
  executable : option jsstring;
  command : jsstring;
  options : exec_options;
  started : N;
}.

Record server := {
  disk : filesystem;
  running : bool;             (* false once an uncaught exception ended Node *)
  clock : N;                  (* milliseconds since the start *)
  next_id : nat;              (* requests are numbered as they arrive *)
  in_flight : list pending;
  sent : list (nat * response);
}.

Inductive event :=
  | Arrive (r : request)                          (* POST /execute *)
  | ChildWrites (path content : jsstring)         (* a child creates a file *)
  | ChildExit (i : nat) (r : exec_result)         (* the child of request i ends *)
  | Tick.                                         (* a millisecond passes *)

(** The server once lines 1 to 12 have run on the disk [fs]. *)
Definition boot (fs : filesystem) : server :=
  let '(fs', r) := startup fs in
  {| disk := fs';
     running := match r with inr _ => true | inl _ => false end;
     clock := 0; next_id := 0; in_flight := []; sent := [] |}.

(** A handler that throws: Express catches the exception and its own error
    handler answers with 500, the error having no [status] field. *)
Definition express_error : response := {| status := 500; body := ErrorPage |}.

Definition arrive (s : server) (r : request) : server :=
  let i := next_id s in
  match execute_handler r (disk s) with
  | (fs, inl _) =>
      {| disk := fs; running := running s; clock := clock s; next_id := S i;
         in_flight := in_flight s; sent := sent s ++ [(i, express_error)] |}
  | (fs, inr (Returned res)) =>
      {| disk := fs; running := running s; clock := clock s; next_id := S i;
         in_flight := in_flight s; sent := sent s ++ [(i, res)] |}
  | (fs, inr (ExecCalled cmd opts file exe)) =>
      {| disk := fs; running := running s; clock := clock s; next_id := S i;
         in_flight := in_flight s ++
           [{| id := i; req := r; filename := file; executable := exe;
               command := cmd; options := opts; started := clock s |}];
         sent := sent s |}
  end.

(** The child of request [i] has ended.  An exception out of the callback
    is caught by nobody and ends the Node process, and with it every
    request that was in flight. *)
Definition child_exit (s : server) (i : nat) (r : exec_result) : server :=
  match find (λ p, bool_decide (id p = i)) (in_flight s) with
  | None => s
  | Some p =>
      let rest := filter (λ q, id q ≠ i) (in_flight s) in
      match exec_callback (filename p) (executable p) r (disk s) with
      | (fs, inr res) =>
          {| disk := fs; running := running s; clock := clock s;
             next_id := next_id s; in_flight := rest;
             sent := sent s ++ [(i, res)] |}
      | (fs, inl _) =>
          {| disk := fs; running := false; clock := clock s;
             next_id := next_id s; in_flight := []; sent := sent s |}
      end
  end.

Definition step (s : server) (ev : event) : server :=
  if running s then
    match ev with
    | Arrive r => arrive s r
    | ChildExit i r => child_exit s i r
    | ChildWrites path content =>
        {| disk := {| files := <[path := content]> (files (disk s));
                      dirs := dirs (disk s) |};
           running := running s; clock := clock s; next_id := next_id s;
           in_flight := in_flight s; sent := sent s |}
    | Tick =>
        {| disk := disk s; running := running s; clock := clock s + 1;
           next_id := next_id s; in_flight := in_flight s; sent := sent s |}
    end
  else s.

Definition run (s : server) (trace : list event) : server :=
  fold_left step trace s.

(** The answers request [i] has got. *)
Definition answers (s : server) (i : nat) : list response :=
  snd <$> filter (λ a, fst a = i) (sent s).

(** The languages of the [switch]. *)
Definition supported (language : jsval) : Prop :=
  language ∈ [JString (lit "python"); JString (lit "c");
              JString (lit "c++"); JString (lit "java")].

(** The files the handler can name. *)
Definition source_paths : list jsstring :=
  [ path_join tempDir (lit "temp.py"); path_join tempDir (lit "temp.c");
    path_join tempDir (lit "temp.cpp"); path_join tempDir (lit "Temp.java");
    path_join tempDir (lit "temp_executable") ].

(** None of them is a directory. *)
Definition sources_free (fs : filesystem) : Prop :=
  ∀ p, p ∈ source_paths → p ∉ dirs fs.

(** The paths a request in flight uses. *)
Definition paths (p : pending) : list jsstring :=
  filename p :: match executable p with Some exe => [exe] | None => [] end.

(** The record of a request in flight is what the handler gave to [exec]. *)
Definition called_exec (p : pending) : Prop :=
  ∃ fs fs',
    execute_handler (req p) fs
    = (fs', inr (ExecCalled (command p) (options p) (filename p) (executable p))).

(** Numbers are given out in order: whatever is answered or in flight has a
    number below [next_id]. *)
Definition numbered (s : server) : Prop :=
  (∀ i res, (i, res) ∈ sent s → (i < next_id s)%nat)
  ∧ (∀ p, p ∈ in_flight s → (id p < next_id s)%nat).

(** Request [i] has called [exec] without a time limit and has no answer. *)
Definition waiting (i : nat) (s : server) : Prop :=
  answers s i = []
  ∧ (i < next_id s)%nat
  ∧ (running s = true →
     ∃ p, p ∈ in_flight s ∧ id p = i ∧ timeout (options p) = 0).

(** A request the handler can run: a language of the [switch] and a string
    as code. *)
Definition runnable (r : request) : Prop :=
  supported (language r) ∧ ∃ src, code r = JString src.

End Server.

(** ** Sample data

    The image runs the server in [/app]. *)

Definition app_dir : jsstring := lit "/app".

Definition submit (language code : string) : request :=
  {| language := JString (lit language); code := JString (lit code) |}.

Definition exited_ok (out : string) : exec_result :=
  {| error := None; stdout := lit out; stderr := [] |}.

Definition exited_with (n : N) (err : string) : exec_result :=
  {| error := Some (ExitCode n); stdout := []; stderr := lit err |}.

(** A fresh server in [/app] on an empty disk. *)
Definition fresh_server : server := boot app_dir empty_fs.

(** Two Python submissions that differ in their code only. *)
Definition request_a : request := submit "python" "print('A')".
Definition request_b : request := submit "python" "print('B')".

(** A submission whose code is full of shell syntax. *)
Definition hostile_request : request :=
  submit "python" "print('; rm -rf /')".

(** A program that never ends. *)
Definition endless_request : request := submit "python" "while True: pass".

(** The records of [request_a] and [request_b] once both are in flight. *)
Definition pending_a : pending :=
  {| id := 0; req := request_a; filename := lit "/app/temp/temp.py";
     executable := None; command := lit "python3 /app/temp/temp.py";
     options := default_exec_options; started := 0 |}.

Definition pending_b : pending :=
  {| id := 1; req := request_b; filename := lit "/app/temp/temp.py";
     executable := None; command := lit "python3 /app/temp/temp.py";
     options := default_exec_options; started := 0 |}.

(** A Java submission, the class file [javac] writes next to the source,
    and the trace of a run that prints [true]. *)
Definition java_request : request :=
  submit "java"
    "public class Temp { public static void main(String[] a) { System.out.println(true); } }".

Definition java_run : list event :=
  [ Arrive java_request;
    ChildWrites (lit "/app/temp/Temp.class") (lit "<class Temp>");
    ChildExit 0 {| error := None; stdout := lit "true" ++ [10]; stderr := [] |} ].

(** A body whose [code] is a number. *)
Definition numeric_request : request :=
  {| language := JString (lit "c"); code := JNumber 42 |}.

(** A C submission, and the executable its compiler writes. *)
Definition c_request : request := submit "c" "int main() { return 0; }".

Definition c_compiled : event :=
  ChildWrites (lit "/app/temp/temp_executable") (lit "<elf>").

(** A body without the [code] field. *)
Definition codeless_request : request :=
  {| language := JString (lit "java"); code := JUndefined |}.

(** [path] occurs in [text] as a contiguous piece. *)
Definition interpolated (path text : jsstring) : Prop :=
  ∃ before after, text = before ++ path ++ after.

(** Nothing but white space. *)
Definition blank (s : jsstring) : Prop :=
  Forall (λ c, is_white_space c = true) s.

(** ** Normalized segments

    The segments [normalizeString] has kept, the last one first: none is
    empty, [.] or holds a slash, and [..] segments lie below all others,
    and only where the path may climb above its root. *)
Definition kept (allowAboveRoot : bool) (res : list jsstring) : Prop :=
  Forall (λ seg, seg ≠ [] ∧ seg ≠ lit "." ∧ slash ∉ seg) res
  ∧ ∃ names ups,
      res = names ++ ups
      ∧ Forall (λ seg, seg ≠ lit "..") names
      ∧ Forall (λ seg, seg = lit "..") ups
      ∧ (allowAboveRoot = false → ups = []).

(** The file names of the handler. *)
Definition source_names : list jsstring :=
  lit <$> ["temp.py"; "temp.c"; "temp.cpp"; "Temp.java"; "temp_executable"]%string.

(** ** Bookkeeping of the requests

    The numbers of the requests that have an answer, and of those in
    flight. *)
Definition answered (s : server) : list nat := fst <$> sent s.
Definition flying (s : server) : list nat := id <$> in_flight s.

(** Every number is in one place at most, and while the server runs every
    number given out is in one of the two. *)
Definition accounted (s : server) : Prop :=
  numbered s
  ∧ NoDup (answered s ++ flying s)
  ∧ (running s = true →
     ∀ i, (i < next_id s)%nat → i ∈ answered s ++ flying s).

(** The three answers of [server.js], and the one of Express. *)
Definition answer_shape (res : response) : Prop :=
  res = {| status := 400; body := ErrorBody (lit "Unsupported language") |}
  ∨ res = {| status := 500; body := ErrorPage |}
  ∨ (∃ err, res = {| status := 500; body := StringBody err |})
  ∨ (∃ b, res = {| status := 200; body := OutputBody b |}).

(** * Properties *)

Arguments lit : simpl never.
Arguments path_join : simpl never.
Arguments trim : simpl never.

Lemma strict_eq_lit_true v s : strict_eq_lit v s = true ↔ v = JString (lit s).
Proof.
  destruct v; simpl; try (split; [discriminate | congruence]).
  rewrite bool_decide_eq_true. split; congruence.
Qed.

(** The model on the server in [/app]: the paths, the four commands of the
    [switch], and [trim]. *)

Example tempDir_in_app : tempDir app_dir = lit "/app/temp".
Proof. by vm_compute. Qed.

Example tempDir_at_root : tempDir (lit "/") = lit "/temp".
Proof. by vm_compute. Qed.

Example path_join_normalizes :
  path_join (lit "/srv//app/./old/..") (lit "temp") = lit "/srv/app/temp".
Proof. by vm_compute. Qed.

Example commands_in_app :
  (λ l, snd (execute_handler app_dir (submit l "x") (disk fresh_server)))
    <$> ["python"; "c"; "c++"; "java"]%string
  = [ inr (ExecCalled (lit "python3 /app/temp/temp.py")
             default_exec_options (lit "/app/temp/temp.py") None);
      inr (ExecCalled
             (lit "g++ /app/temp/temp.c -o /app/temp/temp_executable && /app/temp/temp_executable")
             default_exec_options (lit "/app/temp/temp.c")
             (Some (lit "/app/temp/temp_executable")));
      inr (ExecCalled
             (lit "g++ /app/temp/temp.cpp -o /app/temp/temp_executable && /app/temp/temp_executable")
             default_exec_options (lit "/app/temp/temp.cpp")
             (Some (lit "/app/temp/temp_executable")));
      inr (ExecCalled
             (lit "javac /app/temp/Temp.java && java -cp /app/temp Temp")
             default_exec_options (lit "/app/temp/Temp.java") None) ].
Proof. by vm_compute. Qed.

Example trim_strips_both_ends :
  trim ([32; 9] ++ lit "true" ++ [13; 10]) = lit "true".
Proof. by vm_compute. Qed.

Example trim_keeps_inner_space : trim (lit " a b ") = lit "a b".
Proof. by vm_compute. Qed.

(** A C run that succeeds: the compiler writes the executable, the
    callback removes source and executable, the answer is 200. *)
Example c_run_cleans_up :
  let s := run app_dir fresh_server
             [ Arrive (submit "c" "int main() { return 0; }");
               ChildWrites (lit "/app/temp/temp_executable") (lit "<elf>");
               ChildExit 0 (exited_ok "") ] in
  files (disk s) = ∅
  ∧ sent s = [(0%nat, {| status := 200; body := OutputBody false |})].
Proof. split; by vm_compute. Qed.

(** Two Python requests in flight, both children exit: the first callback
    removes the file they share, the second finds none, throws, and ends
    the server with its request unanswered. *)
Example second_callback_ends_the_server :
  let s := run app_dir fresh_server
             [ Arrive request_a; Arrive request_b;
               ChildExit 0 (exited_ok "A"); ChildExit 1 (exited_ok "B") ] in
  running s = false ∧ answers s 0 ≠ [] ∧ answers s 1 = [].
Proof. split_and!; by vm_compute. Qed.

Lemma interpolated_start path after : interpolated path (path ++ after).
Proof. by exists [], after. Qed.

Lemma interpolated_end before path : interpolated path (before ++ path).
Proof. exists before, []. by rewrite app_nil_r. Qed.

Lemma interpolated_app_r before path text :
  interpolated path text → interpolated path (before ++ text).
Proof.
  intros (b & a & ->). exists (before ++ b), a. by rewrite <- app_assoc.
Qed.

Ltac solve_interpolated :=
  repeat first [ apply interpolated_start | apply interpolated_end
               | apply interpolated_app_r ].

Ltac solve_plain := unfold plain; split_and!; compute_done.

Section PathProperties.

Lemma split_slash_plain b : slash ∉ b → split_slash b = [b].
Proof.
  induction b as [|c b IH]; [done|]. intros Hb.
  apply not_elem_of_cons in Hb as [Hc Hb]. simpl.
  destruct (N.eqb_spec c slash) as [->|_]; [done|]. by rewrite IH.
Qed.

Lemma split_slash_cons a : ∃ seg segs, split_slash a = seg :: segs.
Proof.
  induction a as [|c a (seg & segs & E)]; simpl; [by eauto|].
  destruct (c =? slash); [by eauto|]. rewrite E. by eauto.
Qed.

Lemma split_slash_app a b :
  split_slash (a ++ slash :: b) = split_slash a ++ split_slash b.
Proof.
  induction a as [|c a IH]; simpl; [done|].
  destruct (c =? slash); [by rewrite IH|].
  rewrite IH. by destruct (split_slash_cons a) as (seg & segs & ->).
Qed.

Lemma push_segment_plain flag res b : plain b → push_segment flag res b = b :: res.
Proof.
  intros (H1 & _ & H2 & H3). unfold push_segment.
  by rewrite !decide_False.
Qed.

Lemma join_slash_snoc segs b : join_slash (segs ++ [b]) = join_dirs segs ++ b.
Proof.
  induction segs as [|seg segs IH]; [done|].
  change (join_slash ((seg :: segs) ++ [b]))
    with (join_slash (seg :: segs ++ [b])).
  destruct (segs ++ [b]) as [|x xs] eqn:E; [by destruct segs|].
  change (join_slash (seg :: x :: xs)) with (seg ++ slash :: join_slash (x :: xs)).
  rewrite IH. unfold join_dirs. simpl. by rewrite <- !app_assoc.
Qed.

Lemma normalizeString_plain a b flag :
  plain b →
  normalizeString (a ++ slash :: b) flag
  = join_dirs (reverse (fold_left (push_segment flag) (split_slash a) [])) ++ b.
Proof.
  intros Hb. unfold normalizeString.
  rewrite split_slash_app, (split_slash_plain b) by apply Hb.
  rewrite fold_left_app. simpl. rewrite push_segment_plain by done.
  by rewrite reverse_cons, join_slash_snoc.
Qed.

Lemma last_plain a b : plain b → last (a ++ b) ≠ Some slash.
Proof.
  intros (Hne & Hs & _) E. rewrite last_app in E.
  destruct (last b) as [x|] eqn:Hl.
  - simplify_eq. apply last_Some in Hl as (b' & ->). set_solver.
  - by apply last_None in Hl.
Qed.

(** Joining a directory with a plain name puts the name last, after a
    prefix that the directory alone decides. *)
Lemma path_join_plain a b : plain b → path_join a b = join_prefix a ++ b.
Proof.
  intros Hb. pose proof Hb as (Hne & Hs & _). unfold path_join.
  rewrite filter_cons. destruct a as [|c a].
  - rewrite decide_False by auto. rewrite filter_cons, decide_True by done.
    simpl. destruct b as [|x b]; [done|].
    apply not_elem_of_cons in Hs as [Hx Hs]. unfold normalize.
    destruct (N.eqb_spec x slash) as [?|_]; [done|]. simpl negb.
    rewrite bool_decide_eq_false_2 by apply (last_plain [] _ Hb).
    unfold normalizeString.
    rewrite split_slash_plain by (by apply not_elem_of_cons).
    simpl. rewrite push_segment_plain by done. simpl. by rewrite app_nil_r.
  - rewrite decide_True by done. rewrite filter_cons, decide_True by done.
    change (join_slash _) with ((c :: a) ++ slash :: b).
    unfold normalize. cbn [app].
    change (c :: a ++ slash :: b) with ((c :: a) ++ slash :: b).
    rewrite normalizeString_plain by done.
    rewrite bool_decide_eq_false_2
      by (rewrite cons_middle, app_assoc; by apply last_plain).
    unfold join_prefix.
    destruct (join_dirs _ ++ b) as [|x xs] eqn:E.
    + apply app_eq_nil in E as [_ ?]. done.
    + by rewrite <- E, app_nil_r, app_assoc.
Qed.

Variable __dirname : jsstring.

Lemma tempDir_eq : tempDir __dirname = join_prefix __dirname ++ lit "temp".
Proof. apply path_join_plain. solve_plain. Qed.

Lemma source_paths_eq :
  source_paths __dirname
  = (λ name, join_prefix (tempDir __dirname) ++ name)
    <$> (lit <$> ["temp.py"; "temp.c"; "temp.cpp"; "Temp.java";
                  "temp_executable"]%string).
Proof.
  unfold source_paths. cbn [fmap list_fmap].
  by rewrite !path_join_plain by solve_plain.
Qed.

(** The five files the handler names are five different paths. *)
Lemma source_paths_NoDup : NoDup (source_paths __dirname).
Proof.
  rewrite source_paths_eq. apply NoDup_fmap_2; [|compute_done].
  intros x y. apply app_inv_head.
Qed.

(** None of them is [tempDir] itself. *)
Lemma tempDir_not_source : tempDir __dirname ∉ source_paths __dirname.
Proof.
  rewrite source_paths_eq, tempDir_eq. intros Hin.
  apply list_elem_of_fmap in Hin as (name & E & Hin).
  cbn [fmap list_fmap] in Hin.
  repeat (apply elem_of_cons in Hin as [->|Hin]);
    [ change (lit "temp.py") with (lit "tem" ++ lit "p.py") in E
    | change (lit "temp.c") with (lit "te" ++ lit "mp.c") in E
    | change (lit "temp.cpp") with (lit "temp" ++ lit ".cpp") in E
    | change (lit "Temp.java") with (lit "Temp." ++ lit "java") in E
    | change (lit "temp_executable") with (lit "temp_execut" ++ lit "able") in E
    | by apply elem_of_nil in Hin ];
    rewrite app_assoc in E; apply app_inj_2 in E as [_ E]; by vm_compute in E.
Qed.

End PathProperties.

Opaque lit path_join.

Section HandlerProperties.

Variable __dirname : jsstring.

Ltac handler_cases :=
  unfold execute_handler, js_bind, js_ret, writeFileSync in *;
  repeat (case_match; unfold js_throw in *); simplify_eq.

Lemma writeFileSync_ok p src fs :
  p ∉ dirs fs →
  writeFileSync p (JString src) fs
  = ({| files := <[p := src]> (files fs); dirs := dirs fs |}, inr ()).
Proof. intros Hp. simpl. by rewrite bool_decide_eq_false_2. Qed.

Lemma execute_handler_dirs r fs :
  dirs (fst (execute_handler __dirname r fs)) = dirs fs.
Proof. handler_cases; done. Qed.

(** The call of [exec] is reached only for a language of the [switch] and
    a [code] that is a string, which by then is the content of [filename]. *)
Lemma exec_called_inv r fs fs' cmd opts file exe :
  execute_handler __dirname r fs = (fs', inr (ExecCalled cmd opts file exe)) →
  supported (language r) ∧ opts = default_exec_options
  ∧ file ∈ source_paths __dirname ∧ (file ∉ dirs fs)
  ∧ ∃ src, code r = JString src
           ∧ fs' = {| files := <[file := src]> (files fs); dirs := dirs fs |}.
Proof.
  unfold supported, source_paths. intros H. handler_cases;
    repeat match goal with
    | H : strict_eq_lit _ _ = true |- _ => apply strict_eq_lit_true in H
    | H : bool_decide _ = false |- _ => apply bool_decide_eq_false in H
    | H : _ || _ = true |- _ => apply orb_true_iff in H as [H|H]
    end;
    repeat match goal with H : language r = _ |- _ => rewrite H in * end;
    (split_and!; [set_solver | done | set_solver | done | eauto]).
Qed.

Lemma strict_eq_lit_false v s : v ≠ JString (lit s) → strict_eq_lit v s = false.
Proof.
  intros Hne. destruct (strict_eq_lit v s) eqn:E; [|done].
  by apply strict_eq_lit_true in E.
Qed.

(** Evaluates the comparisons of the [switch] on a known language. *)
Ltac eval_switch :=
  repeat match goal with
  | |- context [strict_eq_lit (JString (lit ?a)) ?b] =>
      let v := eval vm_compute in (strict_eq_lit (JString (lit a)) b) in
      change (strict_eq_lit (JString (lit a)) b) with v
  end; cbn [orb]; cbv beta iota.

Ltac supported_cases H :=
  unfold supported in H;
  repeat (apply elem_of_cons in H as [H|H]); [| | | |by apply elem_of_nil in H].

(** Two requests in the same language get the same command, source file
    and executable, whatever their code and whatever is on the disk. *)
Lemma same_language_same_call r1 r2 fs1 fs2 fs1' fs2' cmd1 cmd2 o1 o2 f1 f2 e1 e2 :
  language r1 = language r2 →
  execute_handler __dirname r1 fs1 = (fs1', inr (ExecCalled cmd1 o1 f1 e1)) →
  execute_handler __dirname r2 fs2 = (fs2', inr (ExecCalled cmd2 o2 f2 e2)) →
  cmd1 = cmd2 ∧ o1 = o2 ∧ f1 = f2 ∧ e1 = e2.
Proof.
  intros Hlang H1 H2. unfold execute_handler in *. rewrite Hlang in H1.
  unfold js_bind, js_ret in *. repeat case_match; by simplify_eq.
Qed.

(** With a language of the [switch], a string as code and no directory in
    the way, the handler writes the code to the source file and calls
    [exec]. *)
Lemma handler_calls_exec l src fs :
  supported l → sources_free __dirname fs →
  ∃ cmd file exe,
    execute_handler __dirname {| language := l; code := JString src |} fs
    = ({| files := <[file := src]> (files fs); dirs := dirs fs |},
       inr (ExecCalled cmd default_exec_options file exe)).
Proof.
  intros Hl Hfree. unfold sources_free, source_paths in Hfree.
  supported_cases Hl; subst l; unfold execute_handler; cbn [language code];
    eval_switch; unfold js_bind, js_ret;
    (rewrite writeFileSync_ok; [by eauto | apply Hfree; set_solver]).
Qed.

(** C9. Two requests in the same supported language hand the same command
    string to [exec]: whenever both reach the call, the commands (and the
    paths) are equal; and when their codes are strings they do reach it,
    the code of each having gone nowhere but into the content of the
    source file. *)
Theorem command_depends_on_language_only (r1 r2 : request) (fs1 fs2 : filesystem) :
  language r1 = language r2 → supported (language r1) →
  (∀ fs1' fs2' cmd1 cmd2 o1 o2 f1 f2 e1 e2,
     execute_handler __dirname r1 fs1 = (fs1', inr (ExecCalled cmd1 o1 f1 e1)) →
     execute_handler __dirname r2 fs2 = (fs2', inr (ExecCalled cmd2 o2 f2 e2)) →
     cmd1 = cmd2)
  ∧ (∀ src1 src2,
       code r1 = JString src1 → code r2 = JString src2 →
       sources_free __dirname fs1 → sources_free __dirname fs2 →
       ∃ cmd file exe,
         execute_handler __dirname r1 fs1
         = ({| files := <[file := src1]> (files fs1); dirs := dirs fs1 |},
            inr (ExecCalled cmd default_exec_options file exe))
         ∧ execute_handler __dirname r2 fs2
           = ({| files := <[file := src2]> (files fs2); dirs := dirs fs2 |},
              inr (ExecCalled cmd default_exec_options file exe))).
Proof.
  intros Hlang Hsup. split.
  - intros * H1 H2.
    by destruct (same_language_same_call _ _ _ _ _ _ _ _ _ _ _ _ _ _ Hlang H1 H2).
  - intros src1 src2 Hc1 Hc2 Hf1 Hf2.
    destruct r1 as [l1 c1], r2 as [l2 c2]; simpl in *; subst.
    destruct (handler_calls_exec l2 src1 fs1 Hsup Hf1) as (cmd & file & exe & E1).
    destruct (handler_calls_exec l2 src2 fs2 Hsup Hf2) as (cmd' & file' & exe' & E2).
    assert (cmd = cmd' ∧ default_exec_options = default_exec_options
            ∧ file = file' ∧ exe = exe') as (-> & _ & -> & ->)
      by (eapply same_language_same_call; [|exact E1|exact E2]; done).
    by exists cmd', file', exe'.
Qed.

Lemma exec_called_cases r fs fs' cmd opts file exe :
  execute_handler __dirname r fs = (fs', inr (ExecCalled cmd opts file exe)) →
  (language r = JString (lit "python")
   ∧ file = path_join (tempDir __dirname) (lit "temp.py") ∧ exe = None)
  ∨ (language r = JString (lit "c")
     ∧ file = path_join (tempDir __dirname) (lit "temp.c")
     ∧ exe = Some (path_join (tempDir __dirname) (lit "temp_executable")))
  ∨ (language r = JString (lit "c++")
     ∧ file = path_join (tempDir __dirname) (lit "temp.cpp")
     ∧ exe = Some (path_join (tempDir __dirname) (lit "temp_executable")))
  ∨ (language r = JString (lit "java")
     ∧ file = path_join (tempDir __dirname) (lit "Temp.java") ∧ exe = None).
Proof.
  intros H. handler_cases;
    change (lit "temp." ++ lit "c") with (lit "temp.c");
    change (lit "temp." ++ lit "cpp") with (lit "temp.cpp");
    repeat match goal with
    | H : _ || _ = true |- _ => apply orb_true_iff in H as [H|H]
    | H : strict_eq_lit _ _ = true |- _ => apply strict_eq_lit_true in H
    end;
    try match goal with
    | H : language r = _, H' : strict_eq_lit (language r) _ = false |- _ =>
        rewrite H in H'; by vm_compute in H'
    end;
    try match goal with
    | H : language r = JString (lit ?a), H' : language r = JString (lit ?b) |- _ =>
        assert_fails (unify a b); rewrite H in H'; by vm_compute in H'
    end;
    try discriminate; auto 6.
Qed.

(** C1 (as amended). The code of a request never becomes part of the
    command: it is the content of the source file and nothing else, and
    the command is the same for any other code.  The command itself is a
    shell script, run by [/bin/sh -c], into which the paths of the source
    file and of the executable are interpolated. *)
Theorem code_is_file_content_command_is_shell_text
    (r : request) (fs fs' : filesystem) (cmd : jsstring) (opts : exec_options)
    (file : jsstring) (exe : option jsstring) :
  execute_handler __dirname r fs = (fs', inr (ExecCalled cmd opts file exe)) →
  exec_argv cmd = [lit "/bin/sh"; lit "-c"; cmd]
  ∧ interpolated file cmd
  ∧ (∀ exe', exe = Some exe' → interpolated exe' cmd)
  ∧ (∃ src, code r = JString src ∧ files fs' !! file = Some src)
  ∧ (∀ code' fs2 fs2' cmd' o' f' e',
       execute_handler __dirname {| language := language r; code := code' |} fs2
       = (fs2', inr (ExecCalled cmd' o' f' e')) →
       cmd' = cmd).
Proof.
  intros H. split_and!.
  - done.
  - clear -H. handler_cases; solve_interpolated.
  - clear -H. intros exe' ->. handler_cases; solve_interpolated.
  - apply exec_called_inv in H as (_ & _ & _ & _ & src & Hc & ->).
    exists src. split; [done|]. simpl. apply lookup_insert_eq.
  - intros * H2.
    by destruct (same_language_same_call
                   {| language := language r; code := code' |} r
                   _ _ _ _ _ _ _ _ _ _ _ _ eq_refl H2 H).
Qed.

(** C6. A language outside the [switch], string or not, is answered with
    400 and [{ error: "Unsupported language" }]; the disk is as it was, no
    file and no directory is made, and nothing is started. *)
Theorem unsupported_language_rejected (r : request) (s : server) :
  ¬ supported (language r) → running s = true →
  execute_handler __dirname r (disk s)
  = (disk s, inr (Returned {| status := 400;
                              body := ErrorBody (lit "Unsupported language") |}))
  ∧ step __dirname s (Arrive r)
    = {| disk := disk s; running := true; clock := clock s;
         next_id := S (next_id s); in_flight := in_flight s;
         sent := sent s ++ [(next_id s,
                   {| status := 400;
                      body := ErrorBody (lit "Unsupported language") |})] |}.
Proof.
  intros Hl Hrun.
  assert (execute_handler __dirname r (disk s)
          = (disk s, inr (Returned {| status := 400;
                body := ErrorBody (lit "Unsupported language") |}))) as E.
  { unfold supported in Hl. unfold execute_handler.
    rewrite !strict_eq_lit_false by set_solver. done. }
  split; [done|]. unfold step, arrive. by rewrite Hrun, E.
Qed.

(** C10. A supported language with the [code] field missing: writing
    [undefined] throws inside the handler, before [command] is set and
    before [exec]; the disk is as it was, no child is started, and the
    answer is the 500 of Express, not a 400. *)
Theorem missing_code_throws_before_exec (r : request) (s : server) :
  supported (language r) → code r = JUndefined → running s = true →
  execute_handler __dirname r (disk s) = (disk s, inl ERR_INVALID_ARG_TYPE)
  ∧ step __dirname s (Arrive r)
    = {| disk := disk s; running := true; clock := clock s;
         next_id := S (next_id s); in_flight := in_flight s;
         sent := sent s ++ [(next_id s, {| status := 500; body := ErrorPage |})] |}.
Proof.
  intros Hl Hc Hrun.
  assert (execute_handler __dirname r (disk s)
          = (disk s, inl ERR_INVALID_ARG_TYPE)) as E.
  { destruct r as [l c]; simpl in *; subst c.
    supported_cases Hl; subst l; unfold execute_handler; cbn [language code];
      by eval_switch. }
  split; [done|]. unfold step, arrive. by rewrite Hrun, E.
Qed.

End HandlerProperties.

(** ** The callback: clean-up and answer *)

Section Trim.

Lemma trimStart_split s : ∃ l, s = l ++ trimStart s ∧ blank l.
Proof.
  induction s as [|c s (l & E & Hl)]; simpl.
  - exists []. split; [done | constructor].
  - destruct (is_white_space c) eqn:Hc.
    + exists (c :: l). split; [by rewrite E at 1 | by constructor].
    + exists []. split; [done | constructor].
Qed.

Lemma trimStart_blank_app l s : blank l → trimStart (l ++ s) = trimStart s.
Proof. induction 1 as [|c l Hc _ IH]; simpl; [done | by rewrite Hc]. Qed.

Lemma trimEnd_split s : ∃ t, s = trimEnd s ++ t ∧ blank t.
Proof.
  unfold trimEnd. destruct (trimStart_split (reverse s)) as (l & E & Hl).
  exists (reverse l). split.
  - by rewrite <- reverse_app, <- E, reverse_involutive.
  - by apply Forall_reverse.
Qed.

Lemma trimEnd_app_blank s t : blank t → trimEnd (s ++ t) = trimEnd s.
Proof.
  intros Ht. unfold trimEnd. rewrite reverse_app, trimStart_blank_app; [done|].
  by apply Forall_reverse.
Qed.

(** What [trim] removes is white space at the two ends. *)
Lemma trim_split s : ∃ l t, s = l ++ trim s ++ t ∧ blank l ∧ blank t.
Proof.
  destruct (trimStart_split s) as (l & E1 & Hl).
  destruct (trimEnd_split (trimStart s)) as (t & E2 & Ht).
  exists l, t. unfold trim. by rewrite <- E2.
Qed.

(** [true] with white space around it is trimmed to [true]. *)
Lemma trim_true l t : blank l → blank t → trim (l ++ lit "true" ++ t) = lit "true".
Proof.
  intros Hl Ht. unfold trim. rewrite trimStart_blank_app by done.
  change (trimStart (lit "true" ++ t)) with (lit "true" ++ t).
  rewrite trimEnd_app_blank by done. reflexivity.
Qed.

Lemma trim_is_true s :
  trim s = lit "true" ↔ ∃ l t, s = l ++ lit "true" ++ t ∧ blank l ∧ blank t.
Proof.
  split.
  - intros E. destruct (trim_split s) as (l & t & Hs & Hl & Ht).
    exists l, t. by rewrite <- E.
  - intros (l & t & -> & Hl & Ht). by apply trim_true.
Qed.

End Trim.

Section CallbackProperties.

(** With its source file still there, the callback removes it, removes the
    executable if there is one, and answers. *)
Lemma exec_callback_runs file exe r fs :
  is_Some (files fs !! file) →
  (∀ e, exe = Some e → e ∉ dirs fs) →
  ∃ fs',
    exec_callback file exe r fs
    = (fs', inr (match error r with
                 | Some _ => {| status := 500; body := StringBody (stderr r) |}
                 | None => {| status := 200;
                              body := OutputBody
                                (bool_decide (trim (stdout r) = lit "true")) |}
                 end))
    ∧ dirs fs' = dirs fs
    ∧ files fs' !! file = None
    ∧ (∀ e, exe = Some e → e ≠ [] → files fs' !! e = None)
    ∧ (∀ p, p ≠ file → exe ≠ Some p → files fs' !! p = files fs !! p).
Proof.
  intros [c Hfile] Hexe. unfold exec_callback, js_bind, unlinkSync at 1.
  rewrite Hfile. destruct exe as [e|].
  - destruct (decide (e = [])) as [->|Hne].
    { rewrite bool_decide_eq_true_2 by done. unfold js_ret.
      eexists. split; [by destruct (error r)|]. simpl.
      split_and!; [done | apply lookup_delete_eq | by intros ? [= <-] ? |].
      intros p Hp _. by apply lookup_delete_ne. }
    rewrite bool_decide_eq_false_2 by done.
    unfold existsSync, unlinkSync, js_ret. cbn [files dirs].
    rewrite (bool_decide_eq_false_2 (e ∈ dirs fs)) by eauto.
    rewrite orb_false_r.
    destruct (delete file (files fs) !! e) as [x|] eqn:E.
    + rewrite bool_decide_eq_true_2 by eauto. cbn [files dirs]. rewrite E.
      eexists. split; [by destruct (error r)|]. cbn [files dirs].
      split_and!; [done | | |].
      * destruct (decide (e = file)) as [->|];
          [apply lookup_delete_eq | rewrite lookup_delete_ne by done;
                                    apply lookup_delete_eq].
      * intros ? [= <-] _. apply lookup_delete_eq.
      * intros p Hp Hp'. rewrite !lookup_delete_ne by congruence. done.
    + rewrite bool_decide_eq_false_2 by (by intros [? ?]).
      eexists. split; [by destruct (error r)|]. cbn [files dirs].
      split_and!; [done | apply lookup_delete_eq | by intros ? [= <-] _ |].
      intros p Hp _. by apply lookup_delete_ne.
  - unfold js_ret. eexists. split; [by destruct (error r)|]. cbn [files dirs].
    split_and!; [done | apply lookup_delete_eq | done |].
    intros p Hp _. by apply lookup_delete_ne.
Qed.

(** The callback never makes or removes a directory, even when it throws. *)
Lemma exec_callback_dirs file exe r fs :
  dirs (fst (exec_callback file exe r fs)) = dirs fs.
Proof.
  unfold exec_callback, js_bind, unlinkSync, existsSync, js_ret.
  repeat case_match; simplify_eq; done.
Qed.

(** C4 (as amended). When the command has ended, the HTTP status follows
    the error of [exec]: a command that failed, in its compile step or in
    its run step alike, is answered with 500 and the captured standard
    error as the body; 200 is the answer exactly when the command exited
    with 0.  The answer carries no verdict. *)
Theorem failed_command_answers_500 (file : jsstring) (exe : option jsstring)
    (r : exec_result) (fs : filesystem) :
  is_Some (files fs !! file) →
  (∀ e, exe = Some e → e ∉ dirs fs) →
  ∃ fs' res,
    exec_callback file exe r fs = (fs', inr res)
    ∧ (status res = 200 ↔ error r = None)
    ∧ (∀ e, error r = Some e →
         res = {| status := 500; body := StringBody (stderr r) |}).
Proof.
  intros Hfile Hexe.
  destruct (exec_callback_runs file exe r fs Hfile Hexe) as (fs' & E & _).
  eexists fs', _. split; [exact E|].
  destruct (error r); simpl; split; done.
Qed.

(** C5 (as amended). A run that exits with 0: whenever the callback sends
    an answer, the answer is 200 with [{ output: b }], where [b] is a
    boolean, [true] exactly when the standard output is the text [true]
    with nothing but white space before and after it; the text of the
    output itself is not in the answer.  The callback does send it when
    the source file of the request is still on the disk. *)
Theorem output_is_comparison_with_true (file : jsstring) (exe : option jsstring)
    (r : exec_result) (fs : filesystem) :
  error r = None →
  (∀ fs' res,
     exec_callback file exe r fs = (fs', inr res) →
     ∃ b, res = {| status := 200; body := OutputBody b |}
          ∧ (b = true
             ↔ ∃ l t, stdout r = l ++ lit "true" ++ t ∧ blank l ∧ blank t))
  ∧ (is_Some (files fs !! file) → (∀ e, exe = Some e → e ∉ dirs fs) →
     ∃ fs' res, exec_callback file exe r fs = (fs', inr res)).
Proof.
  intros Herr. split.
  - intros fs' res E.
    assert (res = {| status := 200;
                     body := OutputBody
                       (bool_decide (trim (stdout r) = lit "true")) |}) as ->.
    { revert E. unfold exec_callback, js_bind, unlinkSync, existsSync, js_ret.
      rewrite Herr. repeat case_match; by intros [= <-]. }
    eexists. split; [reflexivity|].
    by rewrite bool_decide_eq_true, trim_is_true.
  - intros Hfile Hexe.
    destruct (exec_callback_runs file exe r fs Hfile Hexe) as (fs' & E & _).
    by eexists fs', _.
Qed.

End CallbackProperties.

(** ** The server: what holds along every trace *)

Section ServerProperties.

Variable __dirname : jsstring.

Lemma run_cons s ev trace :
  run __dirname s (ev :: trace) = run __dirname (step __dirname s ev) trace.
Proof. done. Qed.

Lemma step_dirs s ev : dirs (disk (step __dirname s ev)) = dirs (disk s).
Proof.
  unfold step. destruct (running s); [|done]. destruct ev as [r|? ?|i r|]; try done.
  - unfold arrive. pose proof (execute_handler_dirs __dirname r (disk s)) as H.
    by destruct (execute_handler _ _ _) as [fs [e|[res|cmd opts file exe]]].
  - unfold child_exit. destruct (find _ _) as [p|]; [|done].
    pose proof (exec_callback_dirs (filename p) (executable p) r (disk s)) as H.
    by destruct (exec_callback _ _ _ _) as [fs [e|res]].
Qed.

Lemma run_dirs s trace : dirs (disk (run __dirname s trace)) = dirs (disk s).
Proof.
  revert s. induction trace as [|ev trace IH]; intros s; [done|].
  simpl. by rewrite IH, step_dirs.
Qed.

Lemma boot_sources_free fs :
  sources_free __dirname fs → sources_free __dirname (disk (boot __dirname fs)).
Proof.
  intros Hfree p Hp. specialize (Hfree p Hp).
  unfold boot, startup, js_bind, existsSync, mkdirSync, js_ret.
  destruct (bool_decide (is_Some (files fs !! tempDir __dirname))
            || bool_decide (tempDir __dirname ∈ dirs fs)) eqn:E;
    simpl; [done|]. rewrite E. simpl.
  apply not_elem_of_union. split; [|done].
  apply not_elem_of_singleton. intros ->.
  by apply (tempDir_not_source __dirname).
Qed.

Lemma run_sources_free s trace :
  sources_free __dirname (disk s) →
  sources_free __dirname (disk (run __dirname s trace)).
Proof. unfold sources_free. by rewrite run_dirs. Qed.

(** What is in flight was put there by the handler. *)
Lemma step_called_exec s ev :
  Forall (called_exec __dirname) (in_flight s) →
  Forall (called_exec __dirname) (in_flight (step __dirname s ev)).
Proof.
  intros Hs. unfold step. destruct (running s); [|done].
  destruct ev as [r|? ?|i r|]; try done.
  - unfold arrive.
    destruct (execute_handler _ _ _) as [fs [e|[res|cmd opts file exe]]] eqn:E;
      try done.
    apply Forall_app. split; [done|]. apply Forall_singleton.
    by exists (disk s), fs.
  - unfold child_exit. destruct (find _ _) as [p|]; [|done].
    destruct (exec_callback _ _ _ _) as [fs [e|res]]; [by constructor|].
    cbn [in_flight]. rewrite Forall_forall in *. intros q Hq.
    apply list_elem_of_filter in Hq as [_ Hq]. auto.
Qed.

Lemma run_called_exec s trace :
  Forall (called_exec __dirname) (in_flight s) →
  Forall (called_exec __dirname) (in_flight (run __dirname s trace)).
Proof.
  revert s. induction trace as [|ev trace IH]; intros s Hs; [done|].
  simpl. by apply IH, step_called_exec.
Qed.

Lemma boot_fresh fs :
  in_flight (boot __dirname fs) = [] ∧ sent (boot __dirname fs) = []
  ∧ clock (boot __dirname fs) = 0.
Proof. unfold boot. by destruct (startup _ _) as [? ?]. Qed.

Lemma find_id_Some (l : list pending) i p :
  find (λ q, bool_decide (id q = i)) l = Some p → p ∈ l ∧ id p = i.
Proof.
  intros H. apply find_some in H as [Hin Hid].
  split; [by apply list_elem_of_In | by apply bool_decide_eq_true in Hid].
Qed.

Lemma boot_numbered fs : numbered (boot __dirname fs).
Proof.
  destruct (boot_fresh fs) as (E1 & E2 & _). unfold numbered.
  rewrite E1, E2. split; intros *; by intros ?%elem_of_nil.
Qed.

Lemma step_numbered s ev : numbered s → numbered (step __dirname s ev).
Proof.
  intros [Hsent Hfl]. unfold step. destruct (running s); [|done].
  assert (∀ i res, (i, res) ∈ sent s → (i < S (next_id s))%nat) as Hsent'
    by (intros i res H; specialize (Hsent i res H); lia).
  assert (∀ p, p ∈ in_flight s → (id p < S (next_id s))%nat) as Hfl'
    by (intros p H; specialize (Hfl p H); lia).
  destruct ev as [r|? ?|i r|]; try done.
  - unfold arrive.
    destruct (execute_handler _ _ _) as [fs [e|[res|cmd opts file exe]]];
      split; cbn [sent in_flight next_id]; intros *;
      rewrite ?elem_of_app, ?list_elem_of_singleton;
      intros H; destruct_or?; simplify_eq/=; eauto.
  - unfold child_exit. destruct (find _ _) as [p|] eqn:E; [|done].
    apply find_id_Some in E as [Hp <-].
    destruct (exec_callback _ _ _ _) as [fs [e|res]];
      split; cbn [sent in_flight next_id]; intros *;
      rewrite ?elem_of_app, ?list_elem_of_singleton, ?list_elem_of_filter;
      intros H; destruct_or?; destruct_and?; simplify_eq/=; eauto;
      by apply elem_of_nil in H.
Qed.

Lemma run_numbered s trace : numbered s → numbered (run __dirname s trace).
Proof.
  revert s. induction trace as [|ev trace IH]; intros s Hs; [done|].
  simpl. by apply IH, step_numbered.
Qed.

Lemma numbered_no_answer s : numbered s → answers s (next_id s) = [].
Proof.
  intros [Hsent _]. unfold answers.
  induction (sent s) as [|[i res] l IH]; [done|].
  rewrite filter_cons_False.
  - apply IH. intros j res' Hin. apply (Hsent j res'). by right.
  - simpl. assert ((i, res) ∈ (i, res) :: l) as Hin by left.
    specialize (Hsent i res Hin). lia.
Qed.

(** A runnable request is started the moment it arrives. *)
Lemma arrive_runnable s r :
  running s = true → sources_free __dirname (disk s) → runnable r →
  ∃ cmd file exe src,
    code r = JString src
    ∧ step __dirname s (Arrive r)
      = {| disk := {| files := <[file := src]> (files (disk s));
                      dirs := dirs (disk s) |};
           running := true; clock := clock s; next_id := S (next_id s);
           in_flight := in_flight s ++
             [{| id := next_id s; req := r; filename := file;
                 executable := exe; command := cmd;
                 options := default_exec_options; started := clock s |}];
           sent := sent s |}.
Proof.
  intros Hrun Hfree [Hl [src Hc]].
  destruct (handler_calls_exec __dirname (language r) src (disk s) Hl Hfree)
    as (cmd & file & exe & E).
  exists cmd, file, exe, src. split; [done|].
  unfold step, arrive. rewrite Hrun. destruct r as [l c]; simpl in *; subst c.
  by rewrite E.
Qed.

Lemma run_arrivals s rs :
  running s = true → sources_free __dirname (disk s) → Forall runnable rs →
  running (run __dirname s (Arrive <$> rs)) = true
  ∧ length (in_flight (run __dirname s (Arrive <$> rs)))
    = (length (in_flight s) + length rs)%nat
  ∧ sent (run __dirname s (Arrive <$> rs)) = sent s
  ∧ clock (run __dirname s (Arrive <$> rs)) = clock s.
Proof.
  intros Hrun Hfree Hrs. revert s Hrun Hfree.
  induction Hrs as [|r rs Hr _ IH]; intros s Hrun Hfree.
  - simpl. split_and!; [done | lia | done | done].
  - destruct (arrive_runnable s r Hrun Hfree Hr) as (cmd & file & exe & src & _ & E).
    rewrite fmap_cons, run_cons.
    destruct (IH (step __dirname s (Arrive r))) as (H1 & H2 & H3 & H4).
    + by rewrite E.
    + intros p Hp. rewrite step_dirs. by apply Hfree.
    + rewrite H1, H2, H3, H4, E. cbn [in_flight sent clock length].
      rewrite length_app. simpl. split_and!; [done | lia | done | done].
Qed.

(** C8 (as amended). There is no pool and no admission step: every
    runnable request is started the moment it arrives, whatever number is
    in flight already.  After [k] arrivals [k] more requests are in flight;
    none has waited (no time has passed) and none has been turned away
    (nothing has been answered). *)
Theorem every_request_is_started_at_once (s : server) (rs : list request) :
  running s = true → sources_free __dirname (disk s) → Forall runnable rs →
  let s' := run __dirname s (Arrive <$> rs) in
  running s' = true
  ∧ length (in_flight s') = (length (in_flight s) + length rs)%nat
  ∧ sent s' = sent s
  ∧ clock s' = clock s.
Proof. intros Hrun Hfree Hrs. by apply run_arrivals. Qed.

Lemma answers_snoc_ne (l : list (nat * response)) i j res :
  j ≠ i →
  filter (λ a, a.1 = i) (l ++ [(j, res)]) = filter (λ a, a.1 = i) l.
Proof.
  intros Hne. rewrite filter_app, filter_cons_False by done.
  by rewrite filter_nil, app_nil_r.
Qed.

(** Only the exit of its own child ends the wait of a request. *)
Lemma step_waiting i s ev :
  waiting i s → (∀ res, ev ≠ ChildExit i res) → waiting i (step __dirname s ev).
Proof.
  intros (Hans & Hlt & Hfl) Hev. unfold step.
  destruct (running s) eqn:Hrun; [|by rewrite <- Hrun in Hfl].
  specialize (Hfl eq_refl) as (p & Hp & Hid & Ht).
  destruct ev as [r|? ?|j r|].
  - unfold arrive, waiting, answers in *.
    destruct (execute_handler _ _ _) as [fs [e|[res|cmd opts file exe]]];
      cbn [sent in_flight next_id running];
      rewrite ?answers_snoc_ne by lia;
      (split_and!; [done | lia | intros _; exists p; set_solver]).
  - unfold waiting, answers in *. cbn [sent in_flight next_id running].
    split_and!; [done | done | by eauto].
  - assert (j ≠ i) as Hj by (intros ->; by apply (Hev r)).
    unfold child_exit. destruct (find _ _) as [q|] eqn:E.
    + unfold waiting, answers in *.
      destruct (exec_callback _ _ _ _) as [fs [e|res]];
        cbn [sent in_flight next_id running]; [done|].
      rewrite answers_snoc_ne by done.
      split_and!; [done | done | intros _; exists p].
      rewrite list_elem_of_filter. split_and!; [congruence | done | done | done].
    + unfold waiting. rewrite Hrun. split_and!; [done | done | by eauto].
  - unfold waiting, answers in *. cbn [sent in_flight next_id running].
    split_and!; [done | done | by eauto].
Qed.

Lemma run_waiting i s trace :
  waiting i s → (∀ res, ChildExit i res ∉ trace) →
  waiting i (run __dirname s trace).
Proof.
  revert s. induction trace as [|ev trace IH]; intros s Hs Hno; [done|].
  rewrite run_cons. apply IH.
  - apply step_waiting; [done|]. intros res ->. apply (Hno res). by left.
  - intros res Hin. apply (Hno res). by right.
Qed.

(** C7 (as amended). [exec] is called without a time limit, so nothing
    ends a child that runs long.  A request gets its answer when its child
    exits and not before: along any trace without that exit, however many
    ticks it holds, the request has no answer, and while the server runs
    it stays in flight with [timeout] 0. *)
Theorem no_answer_until_child_exits
    (fs : filesystem) (before after : list event) (r : request) :
  let s := run __dirname (boot __dirname fs) before in
  let s' := run __dirname s (Arrive r :: after) in
  sources_free __dirname fs → running s = true → runnable r →
  (∀ res, ChildExit (next_id s) res ∉ after) →
  answers s' (next_id s) = []
  ∧ (running s' = true →
     ∃ p, p ∈ in_flight s' ∧ id p = next_id s ∧ timeout (options p) = 0).
Proof.
  intros s s' Hfree Hrun Hr Hno.
  assert (waiting (next_id s) s') as (H1 & _ & H2); [|done].
  subst s'. rewrite run_cons. apply run_waiting; [|done].
  destruct (arrive_runnable s r Hrun) as (cmd & file & exe & src & _ & E);
    [by apply run_sources_free, boot_sources_free | done |].
  rewrite E. unfold waiting, answers. cbn [sent in_flight next_id running].
  split_and!.
  - apply numbered_no_answer, run_numbered, boot_numbered.
  - lia.
  - intros _. eexists. split; [apply elem_of_app; right; by left | done].
Qed.

(** Two of the server's paths with different names are different. *)
Ltac path_neq H :=
  rewrite !path_join_plain in H by solve_plain;
  apply app_inv_head in H; by vm_compute in H.

(** C2 (as amended). All requests work in the one [tempDir], and the
    paths of a request follow from its language alone.  Two requests in
    flight in the same language have the same source file path, the same
    executable path and the same command; their source file paths differ
    exactly when their languages differ; and their paths overlap exactly
    when the languages are the same or both are compiled ones, [c] and
    [c++] sharing the executable path. *)
Theorem paths_follow_language
    (fs : filesystem) (trace : list event) (p1 p2 : pending) :
  p1 ∈ in_flight (run __dirname (boot __dirname fs) trace) →
  p2 ∈ in_flight (run __dirname (boot __dirname fs) trace) →
  (language (req p1) = language (req p2) →
   paths p1 = paths p2 ∧ command p1 = command p2)
  ∧ (filename p1 = filename p2 ↔ language (req p1) = language (req p2))
  ∧ ((∃ x, x ∈ paths p1 ∧ x ∈ paths p2)
     ↔ language (req p1) = language (req p2)
       ∨ (is_Some (executable p1) ∧ is_Some (executable p2))).
Proof.
  intros Hp1 Hp2.
  assert (Forall (called_exec __dirname)
            (in_flight (run __dirname (boot __dirname fs) trace))) as Hall.
  { apply run_called_exec. destruct (boot_fresh fs) as (-> & _). constructor. }
  rewrite Forall_forall in Hall.
  destruct (Hall p1 Hp1) as (fs1 & fs1' & E1).
  destruct (Hall p2 Hp2) as (fs2 & fs2' & E2).
  split.
  { intros Hl.
    destruct (same_language_same_call __dirname _ _ _ _ _ _ _ _ _ _ _ _ _ _ Hl E1 E2)
      as (Hc & _ & Hf & He).
    unfold paths. by rewrite Hc, Hf, He. }
  apply exec_called_cases in E1, E2. unfold paths.
  destruct E1 as [(L1 & F1 & X1)|[(L1 & F1 & X1)|[(L1 & F1 & X1)|(L1 & F1 & X1)]]];
  destruct E2 as [(L2 & F2 & X2)|[(L2 & F2 & X2)|[(L2 & F2 & X2)|(L2 & F2 & X2)]]];
    rewrite L1, L2, F1, F2, X1, X2; clear; split.
  all: try (split; intros H;
            [ first [done | exfalso; path_neq H]
            | first [done | exfalso; by vm_compute in H] ]).
  all: split.
  all: try (intros (x & H1 & H2);
            repeat (apply elem_of_cons in H1 as [->|H1]);
            try (by apply elem_of_nil in H1);
            repeat (apply elem_of_cons in H2 as [H2|H2]);
            try (by apply elem_of_nil in H2);
            first [ by left | right; split; by eauto | exfalso; path_neq H2 ]).
  all: intros [H|[[? H1] [? H2]]]; try discriminate;
       try (exfalso; by vm_compute in H);
       first [ eexists; split; by left
             | eexists; split; right; by left ].
Qed.

End ServerProperties.

(** * The properties on the server in [/app] *)

Lemma fresh_server_sources_free : sources_free app_dir (disk fresh_server).
Proof.
  apply boot_sources_free. intros p _. apply not_elem_of_empty.
Qed.

Lemma supported_python : supported (JString (lit "python")).
Proof. unfold supported. compute_done. Qed.

Lemma runnable_submit_python src : runnable (submit "python" src).
Proof. split; [apply supported_python | by eexists]. Qed.

(** C1, counterexample. For the hostile submission the child that [exec]
    starts is a shell, [/bin/sh -c], and the script it is given has the
    path of the source file inside it: no argument vector of [python3]. *)
Lemma shell_runs_command_with_path_inside :
  ∃ fs',
    execute_handler app_dir hostile_request (disk fresh_server)
    = (fs', inr (ExecCalled (lit "python3 /app/temp/temp.py")
                   default_exec_options (lit "/app/temp/temp.py") None))
    ∧ exec_argv (lit "python3 /app/temp/temp.py")
      = [lit "/bin/sh"; lit "-c"; lit "python3 /app/temp/temp.py"]
    ∧ interpolated (lit "/app/temp/temp.py") (lit "python3 /app/temp/temp.py").
Proof.
  eexists. split_and!.
  - vm_compute. reflexivity.
  - reflexivity.
  - exists (lit "python3 "), []. vm_compute. reflexivity.
Qed.

Lemma code_is_file_content_command_is_shell_text_witness :
  ∃ fs',
    execute_handler app_dir hostile_request (disk fresh_server)
    = (fs', inr (ExecCalled (lit "python3 /app/temp/temp.py")
                   default_exec_options (lit "/app/temp/temp.py") None))
    ∧ files fs' !! lit "/app/temp/temp.py" = Some (lit "print('; rm -rf /')")
    ∧ interpolated (lit "/app/temp/temp.py") (lit "python3 /app/temp/temp.py")
    ∧ ∀ code' fs2 fs2' cmd' o' f' e',
        execute_handler app_dir
          {| language := language hostile_request; code := code' |} fs2
        = (fs2', inr (ExecCalled cmd' o' f' e')) →
        cmd' = lit "python3 /app/temp/temp.py".
Proof.
  eexists.
  assert (execute_handler app_dir hostile_request (disk fresh_server)
          = ({| files := <[lit "/app/temp/temp.py" := lit "print('; rm -rf /')"]>
                           (files (disk fresh_server));
                dirs := dirs (disk fresh_server) |},
             inr (ExecCalled (lit "python3 /app/temp/temp.py")
                    default_exec_options (lit "/app/temp/temp.py") None))) as E
    by (vm_compute; reflexivity).
  destruct (code_is_file_content_command_is_shell_text app_dir _ _ _ _ _ _ _ E)
    as (_ & Hfile & _ & (src & Hsrc & Hread) & Hsame).
  split; [exact E|]. split_and!; [|exact Hfile|exact Hsame].
  rewrite Hread. f_equal. by injection Hsrc.
Defined.

(** C2, counterexample. Two Python requests in flight at the same time
    have the same source file path, and the file holds the code of the
    second: the first request's child finds the other request's source in
    its place. *)
Lemma concurrent_requests_share_source_file :
  let s := run app_dir fresh_server [Arrive request_a; Arrive request_b] in
  in_flight s = [pending_a; pending_b]
  ∧ filename pending_a = filename pending_b
  ∧ code request_a ≠ code request_b
  ∧ files (disk s) !! filename pending_a = Some (lit "print('B')").
Proof. split_and!; [by vm_compute | done | by vm_compute | by vm_compute]. Qed.

Lemma paths_follow_language_witness :
  pending_a ∈ in_flight (run app_dir fresh_server [Arrive request_a; Arrive request_b])
  ∧ pending_b ∈ in_flight (run app_dir fresh_server [Arrive request_a; Arrive request_b])
  ∧ paths pending_a = paths pending_b
  ∧ command pending_a = command pending_b.
Proof.
  assert (in_flight (run app_dir fresh_server [Arrive request_a; Arrive request_b])
          = [pending_a; pending_b]) as E by (vm_compute; reflexivity).
  assert (pending_a ∈ in_flight
            (run app_dir fresh_server [Arrive request_a; Arrive request_b])) as Ha
    by (rewrite E; left).
  assert (pending_b ∈ in_flight
            (run app_dir fresh_server [Arrive request_a; Arrive request_b])) as Hb
    by (rewrite E; right; left).
  split; [exact Ha|]. split; [exact Hb|].
  apply (paths_follow_language app_dir empty_fs _ pending_a pending_b Ha Hb).
  reflexivity.
Defined.

(** C3: the code departs from it. A Java run that succeeds leaves the
    class file of the compiler in [tempDir]: the callback removes
    [Temp.java] and nothing else, so after the answer is sent and nothing
    is in flight, [Temp.class] is still on the disk. *)
Theorem java_class_file_is_left_behind :
  let s := run app_dir fresh_server java_run in
  in_flight s = []
  ∧ sent s = [(0%nat, {| status := 200; body := OutputBody true |})]
  ∧ files (disk s) !! lit "/app/temp/Temp.java" = None
  ∧ files (disk s) !! lit "/app/temp/Temp.class" = Some (lit "<class Temp>").
Proof. split_and!; by vm_compute. Qed.

(** C4, counterexample. A C submission that does not compile, and a Python
    submission that raises: both are answered with 500 and the text of the
    standard error, not with 200 and a verdict. *)
Lemma failures_are_answered_500 :
  sent (run app_dir fresh_server
          [Arrive (submit "c" "int main( { return 0; }");
           ChildExit 0 (exited_with 1 "temp.c:1:11: error: expected declaration")])
  = [(0%nat, {| status := 500;
                body := StringBody (lit "temp.c:1:11: error: expected declaration") |})]
  ∧ sent (run app_dir fresh_server
            [Arrive (submit "python" "raise SystemExit(3)");
             ChildExit 0 (exited_with 3 "")])
    = [(0%nat, {| status := 500; body := StringBody [] |})].
Proof. split; by vm_compute. Qed.

Lemma failed_command_answers_500_witness :
  let fs := disk (run app_dir fresh_server [Arrive (submit "c" "int main( {")]) in
  ∃ fs' res,
    exec_callback (lit "/app/temp/temp.c") (Some (lit "/app/temp/temp_executable"))
      (exited_with 1 "error") fs = (fs', inr res)
    ∧ res = {| status := 500; body := StringBody (lit "error") |}.
Proof.
  intros fs.
  destruct (failed_command_answers_500 (lit "/app/temp/temp.c")
              (Some (lit "/app/temp/temp_executable")) (exited_with 1 "error") fs)
    as (fs' & res & E & _ & H).
  - compute_done.
  - intros e [= <-]. compute_done.
  - exists fs', res. split; [exact E|]. by apply (H (ExitCode 1)).
Defined.

(** C5, counterexample. A Python program that prints [Hello, World!] and
    exits with 0 is answered with [{ output: false }]: the text it wrote
    is not in the answer. *)
Lemma output_text_is_not_in_the_answer :
  sent (run app_dir fresh_server
          [Arrive (submit "python" "print('Hello, World!')");
           ChildExit 0 {| error := None; stdout := lit "Hello, World!" ++ [10];
                          stderr := [] |}])
  = [(0%nat, {| status := 200; body := OutputBody false |})].
Proof. by vm_compute. Qed.

Lemma output_is_comparison_with_true_witness :
  let fs := disk (run app_dir fresh_server [Arrive request_a]) in
  ∃ fs',
    exec_callback (lit "/app/temp/temp.py") None
      {| error := None; stdout := [32] ++ lit "true" ++ [13; 10]; stderr := [] |} fs
    = (fs', inr {| status := 200; body := OutputBody true |}).
Proof.
  intros fs.
  destruct (output_is_comparison_with_true (lit "/app/temp/temp.py") None
              {| error := None; stdout := [32] ++ lit "true" ++ [13; 10];
                 stderr := [] |} fs eq_refl) as [Hshape Hsent].
  destruct Hsent as (fs' & res & E).
  - compute_done.
  - by intros e [=].
  - destruct (Hshape fs' res E) as (b & -> & Hb).
    assert (b = true) as ->.
    { apply Hb. exists [32], [13; 10]. split_and!; [done | |]; repeat constructor. }
    by exists fs'.
Defined.

Lemma unsupported_language_rejected_witness :
  ¬ supported (language (submit "ruby" "puts 1"))
  ∧ execute_handler app_dir (submit "ruby" "puts 1") (disk fresh_server)
    = (disk fresh_server,
       inr (Returned {| status := 400;
                        body := ErrorBody (lit "Unsupported language") |}))
  ∧ in_flight (step app_dir fresh_server (Arrive (submit "ruby" "puts 1"))) = [].
Proof.
  assert (¬ supported (language (submit "ruby" "puts 1"))) as Hl
    by (unfold supported; compute_done).
  assert (running fresh_server = true) as Hrun by (vm_compute; reflexivity).
  destruct (unsupported_language_rejected app_dir _ fresh_server Hl Hrun)
    as [E1 E2].
  split; [exact Hl|]. split; [exact E1|]. rewrite E2. reflexivity.
Defined.

(** C7, counterexample. Take a limit of 1000 ms and an allowance of 100 ms.
    A program that never ends is submitted and 1101 ms pass: the request
    has no answer, no [Timeout] among the answers, and is still in flight
    with its child alive. *)
Lemma endless_child_is_not_timed_out :
  let s := run app_dir fresh_server (Arrive endless_request :: replicate 1101 Tick) in
  clock s = 1101 ∧ running s = true ∧ sent s = []
  ∧ (id <$> in_flight s) = [0%nat]
  ∧ (timeout ∘ options <$> in_flight s) = [0].
Proof. split_and!; by vm_compute. Qed.

Lemma no_answer_until_child_exits_witness :
  answers (run app_dir fresh_server (Arrive endless_request :: replicate 1101 Tick))
    0%nat = [].
Proof.
  destruct (no_answer_until_child_exits app_dir empty_fs []
              (replicate 1101 Tick) endless_request) as [H _].
  - intros p _. apply not_elem_of_empty.
  - vm_compute. reflexivity.
  - apply runnable_submit_python.
  - intros res H. apply elem_of_replicate in H as [H _]. discriminate H.
  - exact H.
Defined.

(** C8, counterexample. No number bounds the requests in flight: with
    [N + 1] arrivals, [N + 1] are in flight. *)
Lemma in_flight_is_unbounded :
  ¬ ∃ N : nat, ∀ trace,
      (length (in_flight (run app_dir fresh_server trace)) ≤ N)%nat.
Proof.
  intros [N H]. specialize (H (Arrive <$> replicate (S N) request_a)).
  destruct (run_arrivals app_dir fresh_server (replicate (S N) request_a))
    as (_ & Hlen & _).
  - by vm_compute.
  - apply fresh_server_sources_free.
  - apply Forall_replicate, runnable_submit_python.
  - rewrite Hlen, length_replicate in H. simpl in H. lia.
Qed.

Lemma every_request_is_started_at_once_witness :
  length (in_flight (run app_dir fresh_server (Arrive <$> replicate 9 request_a)))
  = 9%nat
  ∧ sent (run app_dir fresh_server (Arrive <$> replicate 9 request_a)) = [].
Proof.
  destruct (every_request_is_started_at_once app_dir fresh_server
              (replicate 9 request_a)) as (_ & Hlen & Hsent & _).
  - vm_compute. reflexivity.
  - apply fresh_server_sources_free.
  - apply Forall_replicate, runnable_submit_python.
  - split; [exact Hlen | exact Hsent].
Defined.

Lemma command_depends_on_language_only_witness :
  ∃ cmd file exe,
    execute_handler app_dir request_a (disk fresh_server)
    = ({| files := <[file := lit "print('A')"]> (files (disk fresh_server));
          dirs := dirs (disk fresh_server) |},
       inr (ExecCalled cmd default_exec_options file exe))
    ∧ execute_handler app_dir request_b (disk fresh_server)
      = ({| files := <[file := lit "print('B')"]> (files (disk fresh_server));
            dirs := dirs (disk fresh_server) |},
         inr (ExecCalled cmd default_exec_options file exe)).
Proof.
  destruct (command_depends_on_language_only app_dir request_a request_b
              (disk fresh_server) (disk fresh_server) eq_refl supported_python)
    as [_ H].
  apply (H (lit "print('A')") (lit "print('B')") eq_refl eq_refl
           fresh_server_sources_free fresh_server_sources_free).
Defined.

Lemma missing_code_throws_before_exec_witness :
  execute_handler app_dir codeless_request (disk fresh_server)
  = (disk fresh_server, inl ERR_INVALID_ARG_TYPE)
  ∧ sent (step app_dir fresh_server (Arrive codeless_request))
    = [(0%nat, {| status := 500; body := ErrorPage |})]
  ∧ in_flight (step app_dir fresh_server (Arrive codeless_request)) = [].
Proof.
  assert (supported (language codeless_request)) as Hl
    by (unfold supported; compute_done).
  assert (running fresh_server = true) as Hrun by (vm_compute; reflexivity).
  destruct (missing_code_throws_before_exec app_dir codeless_request fresh_server
              Hl eq_refl Hrun) as [E1 E2].
  split; [exact E1|]. rewrite E2. split; reflexivity.
Defined.

(** * More of the server

    What the rest of [server.js] does, beyond the properties above: the
    paths it names, the start-up, the handler on any code that is not a
    string, the clean-up of the callback, and what holds of every trace of
    requests that reach the handler. *)

Section MoreHandlerProperties.

Variable __dirname : jsstring.

(** X1. Whatever the directory of the server, [tempDir] and the five files
    the handler names in it are six different paths; and a call of [exec]
    only ever carries one of these files as its source, and
    [temp_executable] as its executable. *)
Theorem handler_paths_are_distinct :
  NoDup (tempDir __dirname :: source_paths __dirname)
  ∧ ∀ r fs fs' cmd opts file exe,
      execute_handler __dirname r fs = (fs', inr (ExecCalled cmd opts file exe)) →
      file ∈ source_paths __dirname
      ∧ file ≠ tempDir __dirname
      ∧ ∀ e, exe = Some e →
             e = path_join (tempDir __dirname) (lit "temp_executable")
             ∧ e ∈ source_paths __dirname ∧ e ≠ file ∧ e ≠ [].
Proof.
  split.
  { apply NoDup_cons. split;
      [apply tempDir_not_source | apply source_paths_NoDup]. }
  intros r fs fs' cmd opts file exe H.
  pose proof (tempDir_not_source __dirname) as Htemp.
  pose proof (source_paths_NoDup __dirname) as Hnodup.
  apply exec_called_cases in H. unfold source_paths in *.
  assert (path_join (tempDir __dirname) (lit "temp_executable") ≠ []) as Hne.
  { rewrite path_join_plain by solve_plain. intros E.
    apply app_eq_nil in E as [_ E]. by vm_compute in E. }
  destruct H as [(_ & -> & ->)|[(_ & -> & ->)|[(_ & -> & ->)|(_ & -> & ->)]]];
    (split_and!;
     [ set_solver
     | intros E; apply Htemp; rewrite <- E; set_solver
     | first
         [ by intros e [=]
         | intros e [= <-]; split_and!; [done | set_solver | | done];
           intros E; rewrite !path_join_plain in E by solve_plain;
           apply app_inv_head in E; by vm_compute in E ] ]).
Qed.

(** X3. A supported language with a [code] that is not a string (a number,
    a boolean, [null], an object, or no field at all): the handler throws
    at the write, the disk stays as it was, nothing is started, and the
    answer is the 500 of Express. *)
Theorem non_string_code_is_answered_500 (r : request) (s : server) :
  supported (language r) → (∀ src, code r ≠ JString src) → running s = true →
  execute_handler __dirname r (disk s) = (disk s, inl ERR_INVALID_ARG_TYPE)
  ∧ disk (step __dirname s (Arrive r)) = disk s
  ∧ in_flight (step __dirname s (Arrive r)) = in_flight s
  ∧ sent (step __dirname s (Arrive r))
    = sent s ++ [(next_id s, {| status := 500; body := ErrorPage |})].
Proof.
  intros Hl Hc Hrun.
  assert (execute_handler __dirname r (disk s)
          = (disk s, inl ERR_INVALID_ARG_TYPE)) as E.
  { destruct r as [l c]; simpl in *.
    unfold supported in Hl.
    repeat (apply elem_of_cons in Hl as [->|Hl]);
      [ | | | |by apply elem_of_nil in Hl];
      unfold execute_handler; cbn [language code];
      repeat match goal with
      | |- context [strict_eq_lit (JString (lit ?a)) ?b] =>
          let v := eval vm_compute in (strict_eq_lit (JString (lit a)) b) in
          change (strict_eq_lit (JString (lit a)) b) with v
      end; cbn [orb]; cbv beta iota;
      (destruct c; [done..| by destruct (Hc s0) | done]). }
  split; [done|]. unfold step, arrive. by rewrite Hrun, E.
Qed.

End MoreHandlerProperties.

Section MoreStartupProperties.

Variable __dirname : jsstring.

(** X2. The start-up never throws and never touches a file.  When
    something is at [tempDir] already it changes nothing; otherwise it
    makes the directory and nothing else.  Afterwards [tempDir] exists, and
    a second start-up on the same disk changes nothing. *)
Theorem startup_makes_tempDir_once (fs : filesystem) :
  ∃ fs',
    startup __dirname fs = (fs', inr ())
    ∧ files fs' = files fs
    ∧ (is_Some (files fs !! tempDir __dirname) ∨ tempDir __dirname ∈ dirs fs →
       fs' = fs)
    ∧ (files fs !! tempDir __dirname = None → tempDir __dirname ∉ dirs fs →
       dirs fs' = {[tempDir __dirname]} ∪ dirs fs)
    ∧ existsSync (tempDir __dirname) fs' = (fs', inr true)
    ∧ startup __dirname fs' = (fs', inr ()).
Proof.
  unfold startup, js_bind, existsSync, mkdirSync, js_ret.
  destruct (bool_decide (is_Some (files fs !! tempDir __dirname))
            || bool_decide (tempDir __dirname ∈ dirs fs)) eqn:E; cbn [negb].
  - exists fs. rewrite E. cbn [negb]. split_and!; try done.
    intros Hf Hd. apply orb_true_iff in E as [E|E];
      apply bool_decide_eq_true in E; [|done].
    rewrite Hf in E. by destruct E.
  - rewrite E. apply orb_false_iff in E as [E1 E2].
    apply bool_decide_eq_false in E1, E2.
    eexists. split; [reflexivity|]. cbn [files dirs].
    assert (bool_decide (tempDir __dirname ∈ ({[tempDir __dirname]} ∪ dirs fs
                                               : gset (list N))) = true) as ->
      by (apply bool_decide_eq_true; set_solver).
    rewrite orb_true_r. cbn [negb]. split_and!; try done.
    intros [H|H]; done.
Qed.

End MoreStartupProperties.

Section MoreCallbackProperties.

(** X4. When the source file is there and the executable path is not a
    directory, the callback does not throw, and what it does to the disk
    is exactly this: the source file and the executable are gone, every
    other file is as it was, and so is every directory.  This holds
    whatever the command did, failed or not. *)
Theorem callback_removes_source_and_executable
    (file : jsstring) (exe : option jsstring) (r : exec_result) (fs : filesystem) :
  is_Some (files fs !! file) →
  (∀ e, exe = Some e → e ≠ [] ∧ e ∉ dirs fs) →
  ∃ fs' res,
    exec_callback file exe r fs = (fs', inr res)
    ∧ dirs fs' = dirs fs
    ∧ ∀ p, files fs' !! p
           = if decide (p = file ∨ exe = Some p) then None else files fs !! p.
Proof.
  intros Hfile Hexe.
  destruct (exec_callback_runs file exe r fs Hfile) as (fs' & E & Hd & Hf & He & Ho).
  { intros e He. by apply Hexe. }
  eexists fs', _. split; [exact E|]. split; [exact Hd|].
  intros p. destruct (decide (p = file ∨ exe = Some p)) as [[->| ->]|Hn].
  - exact Hf.
  - apply He; [done|]. by apply Hexe.
  - apply Ho; intros ?; apply Hn; auto.
Qed.

End MoreCallbackProperties.

Section MoreServerProperties.

Variable __dirname : jsstring.

Lemma find_id_unique (l : list pending) p :
  NoDup (id <$> l) → p ∈ l →
  find (λ q, bool_decide (id q = id p)) l = Some p.
Proof.
  induction l as [|q l IH]; intros Hnd Hp; [by apply elem_of_nil in Hp|].
  rewrite fmap_cons in Hnd. apply NoDup_cons in Hnd as [Hq Hnd].
  cbn [find]. apply elem_of_cons in Hp as [->|Hp].
  - by rewrite bool_decide_eq_true_2.
  - rewrite bool_decide_eq_false_2; [by apply IH|].
    intros E. apply Hq. rewrite E. by apply list_elem_of_fmap_2.
Qed.

Lemma flying_filter (l : list pending) i :
  id <$> filter (λ q, id q ≠ i) l = filter (λ j, j ≠ i) (id <$> l).
Proof.
  induction l as [|q l IH]; [done|].
  rewrite fmap_cons, !filter_cons. destruct (decide (id q ≠ i)).
  - by rewrite fmap_cons, IH.
  - exact IH.
Qed.

Lemma step_accounted s ev : accounted s → accounted (step __dirname s ev).
Proof.
  intros (Hnum & Hnd & Hall). split; [by apply step_numbered|].
  destruct Hnum as [Hsent Hfl].
  assert (next_id s ∉ answered s ++ flying s) as Hfresh.
  { unfold answered, flying. intros Hin. apply elem_of_app in Hin as [Hin|Hin];
      apply list_elem_of_fmap in Hin as (x & E & Hin).
    - destruct x as [i res]. specialize (Hsent i res Hin). simpl in E. lia.
    - specialize (Hfl x Hin). lia. }
  unfold step. destruct (running s) eqn:Hrun; [|by rewrite Hrun].
  specialize (Hall eq_refl).
  assert (∀ i, (i < S (next_id s))%nat →
               i = next_id s ∨ i ∈ answered s ++ flying s) as Hall'.
  { intros i Hi. destruct (decide (i = next_id s)); [by left|].
    right. apply Hall. lia. }
  destruct ev as [r|? ?|i r|]; [| by split | | by split].
  - unfold arrive, answered, flying in *.
    destruct (execute_handler _ _ _) as [fs [e|[res|cmd opts file exe]]];
      cbn [sent in_flight next_id running]; rewrite ?fmap_app; cbn [fmap list_fmap];
      (split;
       [ | intros _ j Hj; rewrite !elem_of_app, ?list_elem_of_singleton;
           destruct (Hall' j Hj) as [->|Hin%elem_of_app]; tauto ]).
    + rewrite <- app_assoc, (Permutation_app_comm [_]). simpl.
      rewrite app_assoc, <- Permutation_cons_append. by apply NoDup_cons.
    + rewrite <- app_assoc, (Permutation_app_comm [_]). simpl.
      rewrite app_assoc, <- Permutation_cons_append. by apply NoDup_cons.
    + rewrite app_assoc, <- Permutation_cons_append. by apply NoDup_cons.
  - unfold child_exit.
    destruct (find _ (in_flight s)) as [p|] eqn:E; [|by rewrite Hrun].
    apply find_id_Some in E as [Hp <-].
    assert (id p ∈ flying s) as Hpf by (by apply list_elem_of_fmap_2).
    apply NoDup_app in Hnd as (Ha & Hdis & Hf).
    unfold answered, flying in *.
    destruct (exec_callback _ _ _ _) as [fs [e|res]];
      cbn [sent in_flight next_id running].
    + split; [|done]. by rewrite app_nil_r.
    + rewrite fmap_app, flying_filter. cbn [fmap list_fmap fst].
      split.
      * apply NoDup_app. split_and!.
        -- apply NoDup_app. split_and!; [done| |apply NoDup_singleton].
           intros j Hj ->%list_elem_of_singleton. by apply (Hdis (id p)).
        -- intros j Hj Hj'. apply list_elem_of_filter in Hj' as [Hne Hj'].
           apply elem_of_app in Hj as [Hj|Hj%list_elem_of_singleton]; [|done].
           by apply (Hdis j).
        -- by apply NoDup_filter.
      * intros _ j Hj. specialize (Hall j Hj).
        rewrite !elem_of_app, list_elem_of_filter, list_elem_of_singleton.
        apply elem_of_app in Hall as [?|?]; [by auto|].
        destruct (decide (j = id p)); by auto.
Qed.

Lemma run_accounted s trace : accounted s → accounted (run __dirname s trace).
Proof.
  revert s. induction trace as [|ev trace IH]; intros s Hs; [done|].
  rewrite run_cons. by apply IH, step_accounted.
Qed.

Lemma boot_accounted fs : accounted (boot __dirname fs).
Proof.
  split; [apply boot_numbered|]. unfold answered, flying.
  destruct (boot_fresh __dirname fs) as (-> & -> & _).
  split; [constructor|]. intros _ i Hi. unfold boot in Hi.
  destruct (startup _ _) as [? ?]. simpl in Hi. lia.
Qed.

Lemma one_answer (l : list (nat * response)) i :
  NoDup (fst <$> l) → (length (filter (λ a, a.1 = i) l) ≤ 1)%nat.
Proof.
  induction l as [|[j res] l IH]; intros Hnd; [simpl; lia|].
  rewrite fmap_cons in Hnd. apply NoDup_cons in Hnd as [Hj Hnd].
  rewrite filter_cons. destruct (decide ((j, res).1 = i)) as [E|_]; [|by apply IH].
  simpl in E. subst j.
  assert (filter (λ a : nat * response, a.1 = i) l = []) as ->; [|simpl; lia].
  destruct (filter _ l) as [|[k res'] l'] eqn:F; [done|]. exfalso.
  assert ((k, res') ∈ filter (λ a : nat * response, a.1 = i) l) as Hin
    by (rewrite F; left).
  apply list_elem_of_filter in Hin as [Hk Hin]. simpl in Hk. subst k.
  apply Hj. by apply (list_elem_of_fmap_2 fst) in Hin.
Qed.

Lemma answers_nonempty s i : answers s i ≠ [] ↔ i ∈ answered s.
Proof.
  unfold answers, answered. split.
  - intros Hne. destruct (filter _ (sent s)) as [|[j res] l] eqn:F; [done|].
    assert ((j, res) ∈ filter (λ a : nat * response, a.1 = i) (sent s)) as Hin
      by (rewrite F; left).
    apply list_elem_of_filter in Hin as [Hj Hin]. simpl in Hj. subst j.
    by apply (list_elem_of_fmap_2 fst) in Hin.
  - intros Hin E. apply list_elem_of_fmap in Hin as ([j res] & -> & Hin).
    assert ((j, res) ∈ filter (λ a : nat * response, a.1 = (j, res).1) (sent s))
      as Hf by (by apply list_elem_of_filter).
    apply (list_elem_of_fmap_2 snd) in Hf. rewrite E in Hf.
    by apply elem_of_nil in Hf.
Qed.

(** X5. Along every trace, no request is answered twice, no request is
    answered while it is still in flight, no two requests in flight have
    the same number, and only requests that have arrived are answered or
    in flight. *)
Theorem no_request_is_answered_twice
    (fs : filesystem) (trace : list event) (i : nat) :
  let s := run __dirname (boot __dirname fs) trace in
  (length (answers s i) ≤ 1)%nat
  ∧ (answers s i ≠ [] → i ∉ flying s)
  ∧ NoDup (flying s)
  ∧ (answers s i ≠ [] ∨ i ∈ flying s → (i < next_id s)%nat).
Proof.
  intros s.
  destruct (run_accounted (boot __dirname fs) trace (boot_accounted fs))
    as ([Hsent Hfl] & Hnd & _). fold s in Hsent, Hfl, Hnd.
  apply NoDup_app in Hnd as (Ha & Hdis & Hf). split_and!.
  - unfold answers. rewrite length_fmap. by apply one_answer.
  - intros Hne. by apply Hdis, answers_nonempty.
  - done.
  - intros [Hne%answers_nonempty|Hin].
    + apply list_elem_of_fmap in Hne as ([j res] & -> & Hin). by eapply Hsent.
    + apply list_elem_of_fmap in Hin as (p & -> & Hin). by apply Hfl.
Qed.

(** X6. While the server runs it drops no request: every request that has
    arrived either has its answer or is in flight, waiting for its child. *)
Theorem running_server_drops_no_request
    (fs : filesystem) (trace : list event) (i : nat) :
  let s := run __dirname (boot __dirname fs) trace in
  running s = true → (i < next_id s)%nat →
  answers s i ≠ [] ∨ i ∈ flying s.
Proof.
  intros s Hrun Hi.
  destruct (run_accounted (boot __dirname fs) trace (boot_accounted fs))
    as (_ & _ & Hall). fold s in Hall.
  specialize (Hall Hrun i Hi). apply elem_of_app in Hall as [H|H];
    [left|by right].
  by apply answers_nonempty.
Qed.

Lemma handler_returned r fs fs' res :
  execute_handler __dirname r fs = (fs', inr (Returned res)) →
  res = {| status := 400; body := ErrorBody (lit "Unsupported language") |}.
Proof.
  unfold execute_handler, js_bind, js_ret, writeFileSync.
  repeat (case_match; unfold js_throw in *); by intros [= <-].
Qed.

Lemma callback_answer file exe r fs fs' res :
  exec_callback file exe r fs = (fs', inr res) →
  res = match error r with
        | Some _ => {| status := 500; body := StringBody (stderr r) |}
        | None => {| status := 200;
                     body := OutputBody (bool_decide (trim (stdout r) = lit "true")) |}
        end.
Proof.
  unfold exec_callback, js_bind, unlinkSync, existsSync, js_ret.
  repeat case_match; by intros [= <-].
Qed.

Lemma step_answer_shape s ev :
  Forall (λ a, answer_shape a.2) (sent s) →
  Forall (λ a, answer_shape a.2) (sent (step __dirname s ev)).
Proof.
  intros Hs. unfold step. destruct (running s); [|done].
  destruct ev as [r|? ?|i r|]; try done.
  - unfold arrive.
    destruct (execute_handler _ _ _) as [fs [e|[res|cmd opts file exe]]] eqn:E;
      cbn [sent]; [| |done]; apply Forall_app; (split; [done|]);
      apply Forall_singleton; unfold answer_shape; cbn [snd].
    + by right; left.
    + left. by eapply handler_returned.
  - unfold child_exit. destruct (find _ (in_flight s)) as [p|]; [|done].
    destruct (exec_callback _ _ _ _) as [fs [e|res]] eqn:E; cbn [sent]; [done|].
    apply Forall_app. split; [done|]. apply Forall_singleton.
    apply callback_answer in E. unfold answer_shape. cbn [snd]. subst res.
    destruct (error r); [right; right; left|right; right; right]; by eexists.
Qed.

Lemma run_answer_shape s trace :
  Forall (λ a, answer_shape a.2) (sent s) →
  Forall (λ a, answer_shape a.2) (sent (run __dirname s trace)).
Proof.
  revert s. induction trace as [|ev trace IH]; intros s Hs; [done|].
  rewrite run_cons. by apply IH, step_answer_shape.
Qed.

(** X7. Every answer to a request that has reached the handler of
    [POST /execute], sent by the handler, by its callback or by Express
    for a throw in the handler, is one of four: 400 with
    [{ error: "Unsupported language" }], the 500 page of Express, 500 with
    a JSON string, or 200 with [{ output: <boolean> }].  The handler and
    its callback give no other status and no other body.  What Express
    answers before the handler runs (another route, a body it cannot
    parse) is not among these answers. *)
Theorem every_answer_has_a_known_shape
    (fs : filesystem) (trace : list event) (i : nat) (res : response) :
  (i, res) ∈ sent (run __dirname (boot __dirname fs) trace) →
  answer_shape res ∧ (status res = 200 ∨ status res = 400 ∨ status res = 500).
Proof.
  intros Hin.
  assert (Forall (λ a, answer_shape a.2)
            (sent (run __dirname (boot __dirname fs) trace))) as Hall.
  { apply run_answer_shape.
    destruct (boot_fresh __dirname fs) as (_ & -> & _). constructor. }
  rewrite Forall_forall in Hall. specialize (Hall _ Hin). simpl in Hall.
  split; [done|].
  destruct Hall as [->|[->|[[err ->]|[b ->]]]]; simpl; auto.
Qed.

Lemma boot_dirs fs :
  dirs fs ⊆ dirs (disk (boot __dirname fs))
  ∧ dirs (disk (boot __dirname fs)) ⊆ {[tempDir __dirname]} ∪ dirs fs
  ∧ files (disk (boot __dirname fs)) = files fs.
Proof.
  unfold boot, startup, js_bind, existsSync, mkdirSync, js_ret.
  destruct (bool_decide (is_Some (files fs !! tempDir __dirname))
            || bool_decide (tempDir __dirname ∈ dirs fs)) eqn:E;
    cbn [negb]; [|rewrite E]; cbn [disk dirs files]; set_solver.
Qed.

(** X8. After the start-up the server never makes and never removes a
    directory, whatever is requested and whatever the children do to
    files: the directories are those it found, and [tempDir]. *)
Theorem server_makes_no_other_directory (fs : filesystem) (trace : list event) :
  let s := run __dirname (boot __dirname fs) trace in
  dirs (disk s) = dirs (disk (boot __dirname fs))
  ∧ dirs fs ⊆ dirs (disk s)
  ∧ dirs (disk s) ⊆ {[tempDir __dirname]} ∪ dirs fs.
Proof.
  intros s. subst s. rewrite run_dirs.
  destruct (boot_dirs fs) as (H1 & H2 & _). done.
Qed.

Lemma exec_called_paths r fs fs' cmd opts file exe :
  execute_handler __dirname r fs = (fs', inr (ExecCalled cmd opts file exe)) →
  file ∈ source_paths __dirname
  ∧ ∀ e, exe = Some e → e ∈ source_paths __dirname.
Proof.
  intros H. apply exec_called_cases in H. unfold source_paths.
  destruct H as [(_ & -> & ->)|[(_ & -> & ->)|[(_ & -> & ->)|(_ & -> & ->)]]];
    (split; [set_solver | intros e [= <-]; set_solver]).
Qed.

(** The handler leaves every file but the five alone, thrown or not. *)
Lemma handler_frame r fs p :
  p ∉ source_paths __dirname →
  files (fst (execute_handler __dirname r fs)) !! p = files fs !! p.
Proof.
  intros Hp. destruct (execute_handler __dirname r fs) as [fs' [e|[res|cmd opts file exe]]] eqn:E.
  - revert E. unfold execute_handler, js_bind, js_ret, writeFileSync.
    repeat (case_match; unfold js_throw in *); intros E; by simplify_eq.
  - revert E. unfold execute_handler, js_bind, js_ret, writeFileSync.
    repeat (case_match; unfold js_throw in *); intros E; by simplify_eq.
  - apply exec_called_inv in E as (_ & _ & Hf & _ & src & _ & ->).
    simpl. apply lookup_insert_ne. by intros ->.
Qed.

(** The callback leaves every file but its two alone, thrown or not. *)
Lemma callback_frame file exe r fs p :
  p ≠ file → exe ≠ Some p →
  files (fst (exec_callback file exe r fs)) !! p = files fs !! p.
Proof.
  intros Hf He. unfold exec_callback, js_bind, unlinkSync, existsSync, js_ret.
  repeat case_match; simplify_eq; cbn [fst files];
    rewrite ?lookup_delete_ne by congruence; done.
Qed.

Lemma step_frame s ev p :
  Forall (called_exec __dirname) (in_flight s) →
  p ∉ source_paths __dirname → (∀ c, ev ≠ ChildWrites p c) →
  files (disk (step __dirname s ev)) !! p = files (disk s) !! p.
Proof.
  intros Hcalled Hp Hev. unfold step. destruct (running s); [|done].
  destruct ev as [r|path c|i r|]; [| | |done].
  - unfold arrive. pose proof (handler_frame r (disk s) p Hp) as H.
    by destruct (execute_handler _ _ _) as [fs [e|[res|cmd opts file exe]]].
  - cbn [disk files]. apply lookup_insert_ne. intros ->. by apply (Hev c).
  - unfold child_exit. destruct (find _ (in_flight s)) as [q|] eqn:E; [|done].
    apply find_id_Some in E as [Hq _].
    rewrite Forall_forall in Hcalled.
    destruct (Hcalled q Hq) as (fs1 & fs1' & Hcall).
    apply exec_called_paths in Hcall as [Hfile Hexe].
    pose proof (callback_frame (filename q) (executable q) r (disk s) p) as H.
    destruct (exec_callback _ _ _ _) as [fs [e|res]]; cbn [disk];
      apply H; try (by intros ->); intros Heq; apply Hp; by apply Hexe.
Qed.

Lemma run_frame s trace p :
  Forall (called_exec __dirname) (in_flight s) →
  p ∉ source_paths __dirname → (∀ c, ChildWrites p c ∉ trace) →
  files (disk (run __dirname s trace)) !! p = files (disk s) !! p.
Proof.
  intros Hc Hp. revert s Hc.
  induction trace as [|ev trace IH]; intros s Hc Hno; [done|].
  rewrite run_cons, IH.
  - apply step_frame; [done | done |]. intros c ->. apply (Hno c). by left.
  - by apply step_called_exec.
  - intros c Hin. apply (Hno c). by right.
Qed.

(** X9. The server writes and removes its own five files and nothing else.
    From any state it has reached, along any further trace, a path that is
    none of the five and that no child writes in that trace holds what it
    held: what a compiler leaves beside the source, such as the class file
    of [javac], is never removed, and no file of the start is touched. *)
Theorem server_touches_only_its_files
    (fs : filesystem) (before after : list event) (p : jsstring) :
  let s := run __dirname (boot __dirname fs) before in
  p ∉ source_paths __dirname → (∀ c, ChildWrites p c ∉ after) →
  files (disk (run __dirname s after)) !! p = files (disk s) !! p
  ∧ (before = [] → files (disk s) !! p = files fs !! p).
Proof.
  intros s Hp Hno. split.
  - apply run_frame; [|done|done]. apply run_called_exec.
    destruct (boot_fresh __dirname fs) as (-> & _). constructor.
  - intros ->. subst s. simpl. by destruct (boot_dirs fs) as (_ & _ & ->).
Qed.

(** ** One request alone, two requests together *)

Lemma arrive_exec s r fs' cmd opts file exe :
  running s = true →
  execute_handler __dirname r (disk s) = (fs', inr (ExecCalled cmd opts file exe)) →
  step __dirname s (Arrive r)
  = {| disk := fs'; running := true; clock := clock s; next_id := S (next_id s);
       in_flight := in_flight s ++
         [{| id := next_id s; req := r; filename := file; executable := exe;
             command := cmd; options := opts; started := clock s |}];
       sent := sent s |}.
Proof. intros Hrun E. unfold step, arrive. by rewrite Hrun, E. Qed.

Lemma child_exit_answered s i r p fs' res :
  running s = true →
  find (λ q, bool_decide (id q = i)) (in_flight s) = Some p →
  exec_callback (filename p) (executable p) r (disk s) = (fs', inr res) →
  step __dirname s (ChildExit i r)
  = {| disk := fs'; running := true; clock := clock s; next_id := next_id s;
       in_flight := filter (λ q, id q ≠ i) (in_flight s);
       sent := sent s ++ [(i, res)] |}.
Proof. intros Hrun F E. unfold step, child_exit. by rewrite Hrun, F, E. Qed.

Lemma child_exit_thrown s i r p fs' e :
  running s = true →
  find (λ q, bool_decide (id q = i)) (in_flight s) = Some p →
  exec_callback (filename p) (executable p) r (disk s) = (fs', inl e) →
  step __dirname s (ChildExit i r)
  = {| disk := fs'; running := false; clock := clock s; next_id := next_id s;
       in_flight := []; sent := sent s |}.
Proof. intros Hrun F E. unfold step, child_exit. by rewrite Hrun, F, E. Qed.

(** Without its source file the callback throws at once. *)
Lemma callback_throws file exe r fs :
  files fs !! file = None → ∃ e, exec_callback file exe r fs = (fs, inl e).
Proof.
  intros Hf. unfold exec_callback, js_bind, unlinkSync. rewrite Hf.
  destruct (bool_decide (file ∈ dirs fs)); by eexists.
Qed.

Lemma numbered_no_answer_ge s i :
  numbered s → (next_id s ≤ i)%nat → answers s i = [].
Proof.
  intros [Hsent _] Hi. unfold answers.
  induction (sent s) as [|[j res] l IH]; [done|].
  rewrite filter_cons_False.
  - apply IH. intros k res' Hin. apply (Hsent k res'). by right.
  - simpl. assert ((j, res) ∈ (j, res) :: l) as Hin by left.
    specialize (Hsent j res Hin). lia.
Qed.

Lemma filter_in_flight_fresh (l : list pending) i :
  (∀ p, p ∈ l → id p ≠ i) → filter (λ q, id q ≠ i) l = l.
Proof.
  induction l as [|q l IH]; intros H; [done|].
  rewrite filter_cons_True by (apply H; left).
  f_equal. apply IH. intros p Hp. apply H. by right.
Qed.

(** Two requests in flight on the same source file: once the first child
    has exited and its callback has removed the file, the exit of the
    second ends the server. *)
Lemma exit_then_exit s pj pk res1 res2 :
  running s = true → NoDup (flying s) →
  pj ∈ in_flight s → pk ∈ in_flight s → id pj ≠ id pk →
  filename pj = filename pk →
  is_Some (files (disk s) !! filename pj) →
  (∀ e, executable pj = Some e → e ∉ dirs (disk s)) →
  ∃ res,
    run __dirname s [ChildExit (id pj) res1; ChildExit (id pk) res2]
    = {| disk := disk (run __dirname s [ChildExit (id pj) res1]);
         running := false; clock := clock s; next_id := next_id s;
         in_flight := []; sent := sent s ++ [(id pj, res)] |}.
Proof.
  intros Hrun Hnd Hj Hk Hne Hfile Hsome Hexe.
  destruct (exec_callback_runs (filename pj) (executable pj) res1 (disk s)
              Hsome Hexe) as (fs1 & E1 & _ & Hgone & _).
  rewrite !run_cons.
  rewrite (child_exit_answered s (id pj) res1 pj fs1 _ Hrun) by
    (by apply find_id_unique || exact E1).
  set (s1 := {| disk := fs1 |}).
  destruct (callback_throws (filename pk) (executable pk) res2 fs1)
    as (e & E2); [by rewrite <- Hfile|].
  eexists. rewrite (child_exit_thrown s1 (id pk) res2 pk fs1 e); [done|done| |done].
  apply find_id_unique.
  - unfold s1. cbn [in_flight]. rewrite flying_filter. by apply NoDup_filter.
  - unfold s1. cbn [in_flight]. apply list_elem_of_filter. split; [congruence|done].
Qed.

(** X10. Two runnable requests in the same language arrive one after the
    other and both children exit, in either order: the callback of the
    first exit removes the source file they share and answers; the
    callback of the second exit throws at [unlinkSync], which ends the
    server, and that request is never answered. *)
Theorem second_exit_in_same_language_ends_the_server
    (fs : filesystem) (before : list event) (r1 r2 : request)
    (res1 res2 : exec_result) (j k : nat) :
  let s := run __dirname (boot __dirname fs) before in
  let s' := run __dirname s
              [Arrive r1; Arrive r2; ChildExit j res1; ChildExit k res2] in
  sources_free __dirname fs → running s = true →
  runnable r1 → runnable r2 → language r1 = language r2 →
  (j = next_id s ∧ k = S (next_id s)) ∨ (j = S (next_id s) ∧ k = next_id s) →
  running s' = false
  ∧ length (answers s' j) = 1%nat
  ∧ answers s' k = [].
Proof.
  intros s s' Hfree Hrun [Hl1 [src1 Hc1]] [Hl2 [src2 Hc2]] Hlang Hjk.
  assert (accounted s) as Hacc by apply run_accounted, boot_accounted.
  assert (sources_free __dirname (disk s)) as Hfree_s
    by (by apply run_sources_free, boot_sources_free).
  destruct r1 as [l1 c1], r2 as [l2 c2]; simpl in *; subst c1 c2 l2.
  destruct (handler_calls_exec __dirname l1 src1 (disk s) Hl1 Hfree_s)
    as (cmd & file & exe & E1).
  pose proof (arrive_exec s _ _ _ _ _ _ Hrun E1) as S1.
  set (s1 := step __dirname s (Arrive {| language := l1; code := JString src1 |})) in *.
  assert (sources_free __dirname (disk s1)) as Hfree1
    by (intros p Hp; unfold s1; rewrite step_dirs; by apply Hfree_s).
  destruct (handler_calls_exec __dirname l1 src2 (disk s1) Hl1 Hfree1)
    as (cmd' & file' & exe' & E2).
  assert (cmd = cmd' ∧ default_exec_options = default_exec_options
          ∧ file = file' ∧ exe = exe') as (<- & _ & <- & <-)
    by (eapply same_language_same_call; [|exact E1|exact E2]; done).
  assert (running s1 = true) as Hrun1 by (by rewrite S1).
  pose proof (arrive_exec s1 _ _ _ _ _ _ Hrun1 E2) as S2.
  set (s2 := step __dirname s1 (Arrive {| language := l1; code := JString src2 |})) in *.
  assert (accounted s2) as (Hnum2 & Hnd2 & _)
    by (unfold s2, s1; by do 2 apply step_accounted).
  apply NoDup_app in Hnd2 as (_ & _ & Hnd2).
  apply exec_called_paths in E1 as [_ Hexe].
  set (p1 := {| id := next_id s; req := {| language := l1; code := JString src1 |};
                filename := file; executable := exe; command := cmd;
                options := default_exec_options; started := clock s |}).
  set (p2 := {| id := S (next_id s);
                req := {| language := l1; code := JString src2 |};
                filename := file; executable := exe; command := cmd;
                options := default_exec_options; started := clock s |}).
  assert (in_flight s2 = (in_flight s ++ [p1]) ++ [p2]) as Hfl2
    by (rewrite S2; cbn [in_flight]; rewrite S1; reflexivity).
  assert (p1 ∈ in_flight s2) as Hp1
    by (rewrite Hfl2, !elem_of_app, !list_elem_of_singleton; auto).
  assert (p2 ∈ in_flight s2) as Hp2
    by (rewrite Hfl2, !elem_of_app, !list_elem_of_singleton; auto).
  assert (is_Some (files (disk s2) !! file)) as Hsome.
  { rewrite S2. cbn [disk files]. rewrite lookup_insert_eq. by eexists. }
  assert (∀ e, exe = Some e → e ∉ dirs (disk s2)) as Hexe2.
  { intros e He. unfold s2, s1. rewrite !step_dirs. by apply Hfree_s, Hexe. }
  assert (running s2 = true) as Hrun2 by (by rewrite S2).
  assert (sent s2 = sent s) as Hsent2 by (rewrite S2; cbn [sent]; by rewrite S1).
  assert (numbered s) as Hnum by apply Hacc.
  assert (∃ pj pk, pj ∈ in_flight s2 ∧ pk ∈ in_flight s2 ∧ id pj = j ∧ id pk = k
                   ∧ j ≠ k ∧ filename pj = file ∧ filename pk = file
                   ∧ executable pj = exe)
    as (pj & pk & Hpj & Hpk & Hj & Hk & Hne & Hfj & Hfk & Hej).
  { destruct Hjk as [[-> ->]|[-> ->]].
    - exists p1, p2. split_and!; first [done | simpl; lia].
    - exists p2, p1. split_and!; first [done | simpl; lia]. }
  destruct (exit_then_exit s2 pj pk res1 res2) as (res & Hend);
    try done; try congruence.
  { rewrite Hej. exact Hexe2. }
  assert (s' = run __dirname s2 [ChildExit (id pj) res1; ChildExit (id pk) res2])
    as -> by (by rewrite Hj, Hk).
  rewrite Hend. unfold answers. cbn [running sent]. rewrite Hsent2, Hj.
  fold (answers s j). fold (answers s k).
  assert (answers s j = [] ∧ answers s k = []) as [Hnj Hnk]
    by (split; apply numbered_no_answer_ge; try done;
        destruct Hjk as [[-> ->]|[-> ->]]; lia).
  split_and!; [done | |].
  - rewrite filter_app, fmap_app, length_app. fold (answers s j). rewrite Hnj.
    by rewrite filter_cons_True.
  - rewrite answers_snoc_ne by done. exact Hnk.
Qed.

Lemma executable_not_empty r fs fs' cmd opts file exe e :
  execute_handler __dirname r fs = (fs', inr (ExecCalled cmd opts file exe)) →
  exe = Some e → e ≠ [].
Proof.
  intros H He. apply exec_called_cases in H.
  assert (path_join (tempDir __dirname) (lit "temp_executable") ≠ []) as Hne.
  { rewrite path_join_plain by solve_plain. intros E.
    apply app_eq_nil in E as [_ E]. by vm_compute in E. }
  destruct H as [(_ & _ & ->)|[(_ & _ & ->)|[(_ & _ & ->)|(_ & _ & ->)]]];
    by simplify_eq.
Qed.

Lemma run_app s trace1 trace2 :
  run __dirname s (trace1 ++ trace2)
  = run __dirname (run __dirname s trace1) trace2.
Proof. apply fold_left_app. Qed.

(** Children that write to the two paths of a request change the files at
    these paths and nothing else of the server. *)
Lemma run_child_writes s writes file exe :
  running s = true →
  Forall (λ ev, ∃ path c, ev = ChildWrites path c
                          ∧ (path = file ∨ exe = Some path)) writes →
  ∃ m,
    run __dirname s writes
    = {| disk := {| files := m; dirs := dirs (disk s) |}; running := true;
         clock := clock s; next_id := next_id s; in_flight := in_flight s;
         sent := sent s |}
    ∧ (∀ p, p ≠ file → exe ≠ Some p → m !! p = files (disk s) !! p)
    ∧ (is_Some (files (disk s) !! file) → is_Some (m !! file)).
Proof.
  intros Hrun Hw. revert s Hrun.
  induction Hw as [|ev writes (path & c & -> & Hpath) _ IH]; intros s Hrun.
  - exists (files (disk s)). split_and!; [|done|done].
    destruct s as [[? ?] ? ? ? ? ?]. simpl in *. by subst.
  - rewrite run_cons.
    set (s1 := step __dirname s (ChildWrites path c)).
    assert (s1 = {| disk := {| files := <[path := c]> (files (disk s));
                               dirs := dirs (disk s) |};
                    running := true; clock := clock s; next_id := next_id s;
                    in_flight := in_flight s; sent := sent s |}) as E
      by (unfold s1, step; by rewrite Hrun).
    destruct (IH s1) as (m & Em & Hother & Hfile); [by rewrite E|].
    exists m. split_and!.
    + rewrite Em, E. done.
    + intros p Hp Hp'. rewrite Hother by done. rewrite E. cbn [disk files].
      apply lookup_insert_ne. destruct Hpath as [->| ->]; congruence.
    + intros Hsome. apply Hfile. rewrite E. cbn [disk files].
      destruct (decide (path = file)) as [->|Hne];
        [rewrite lookup_insert_eq; by eexists | by rewrite lookup_insert_ne].
Qed.

(** X11. A request that runs alone leaves the disk as it found it.  When
    its two paths were free before, and its child wrote to these two paths
    only (the compiler making the executable, or nothing), then after the
    exit of the child the source file and the executable are gone, the
    disk is what it was, the request is answered, and what was in flight
    before is all that is in flight. *)
Theorem lone_request_leaves_disk_as_found
    (fs : filesystem) (before writes : list event) (r : request)
    (res : exec_result) (fs' : filesystem) (cmd : jsstring)
    (opts : exec_options) (file : jsstring) (exe : option jsstring) :
  let s := run __dirname (boot __dirname fs) before in
  let s' := run __dirname s (Arrive r :: writes ++ [ChildExit (next_id s) res]) in
  sources_free __dirname fs → running s = true →
  execute_handler __dirname r (disk s) = (fs', inr (ExecCalled cmd opts file exe)) →
  files (disk s) !! file = None →
  (∀ e, exe = Some e → files (disk s) !! e = None) →
  Forall (λ ev, ∃ path c, ev = ChildWrites path c
                          ∧ (path = file ∨ exe = Some path)) writes →
  disk s' = disk s
  ∧ in_flight s' = in_flight s
  ∧ running s' = true
  ∧ ∃ answer, sent s' = sent s ++ [(next_id s, answer)].
Proof.
  intros s s' Hfree Hrun E Hfile Hexe Hw.
  assert (accounted s) as Hacc by apply run_accounted, boot_accounted.
  assert (sources_free __dirname (disk s)) as Hfree_s
    by (by apply run_sources_free, boot_sources_free).
  pose proof (arrive_exec s _ _ _ _ _ _ Hrun E) as S1.
  set (p := {| id := next_id s; req := r; filename := file; executable := exe;
               command := cmd; options := opts; started := clock s |}) in *.
  assert (accounted (step __dirname s (Arrive r))) as (_ & Hnd & _)
    by (by apply step_accounted).
  rewrite S1 in Hnd. apply NoDup_app in Hnd as (_ & _ & Hnd).
  unfold flying in Hnd. cbn [in_flight] in Hnd.
  pose proof (exec_called_paths _ _ _ _ _ _ _ E) as [_ Hexe_src].
  pose proof (λ e, executable_not_empty _ _ _ _ _ _ _ e E) as Hexe_ne.
  apply exec_called_inv in E as (_ & _ & _ & _ & src & _ & ->).
  subst s'. rewrite run_cons, S1, run_app.
  match goal with |- context [run __dirname ?s1 writes] =>
    destruct (run_child_writes s1 writes file exe eq_refl Hw)
      as (m & -> & Hother & Hsome)
  end.
  cbn [disk files dirs] in Hother, Hsome.
  assert (is_Some (m !! file)) as Hm
    by (apply Hsome; rewrite lookup_insert_eq; by eexists).
  match goal with |- context [run __dirname ?t0 [ChildExit _ _]] =>
    set (t := t0) end.
  destruct (exec_callback_runs file exe res (disk t)) as (fs3 & E3 & Hd & Hf & He & Ho).
  { exact Hm. }
  { intros e He. cbn. by apply Hfree_s, Hexe_src. }
  rewrite run_cons. unfold run. cbn [fold_left].
  erewrite (child_exit_answered t (next_id s) res p fs3);
    [ | done | | exact E3 ].
  2: { apply (find_id_unique (in_flight s ++ [p]) p); [exact Hnd|].
       apply elem_of_app. right. by left. }
  cbn [disk in_flight running sent]. split_and!; [ | | done | by eexists].
  - destruct fs3 as [f3 d3], (disk s) as [f0 d0] eqn:Hdisk.
    cbn [files dirs disk] in *. f_equal; [|done].
    apply map_eq. intros q.
    destruct (decide (q = file)) as [->|Hq]; [by rewrite Hf, Hfile|].
    destruct (decide (exe = Some q)) as [Hq'|Hq'].
    + rewrite He; [by rewrite Hexe | done | by eapply Hexe_ne].
    + rewrite Ho, Hother by done. by apply lookup_insert_ne.
  - destruct Hacc as ([_ Hfl] & _). unfold t. cbn [in_flight].
    rewrite filter_app, filter_cons_False, filter_nil, app_nil_r by (simpl; auto).
    apply filter_in_flight_fresh. intros q Hq. specialize (Hfl q Hq). lia.
Qed.

End MoreServerProperties.

Section MorePathProperties.

Lemma split_slash_segments a : Forall (λ seg, slash ∉ seg) (split_slash a).
Proof.
  induction a as [|c a IH]; simpl.
  - repeat constructor. apply not_elem_of_nil.
  - destruct (N.eqb_spec c slash) as [->|Hc].
    + constructor; [apply not_elem_of_nil | done].
    + destruct (split_slash a) as [|seg segs].
      { repeat constructor. apply not_elem_of_cons.
        split; [congruence | apply not_elem_of_nil]. }
      apply Forall_cons in IH as [Hseg Hsegs]. constructor; [|done].
      apply not_elem_of_cons. split; [congruence | done].
Qed.

Lemma kept_nil flag : kept flag [].
Proof. split; [constructor|]. exists [], []. by repeat constructor. Qed.

Lemma kept_tail flag seg res : kept flag (seg :: res) → kept flag res.
Proof.
  intros [Hall (names & ups & E & Hn & Hu & Hf)].
  apply Forall_cons in Hall as [_ Hall]. split; [done|].
  destruct names as [|nm names].
  - simpl in E. subst ups. apply Forall_cons in Hu as [_ Hu].
    exists [], res. split_and!; [done | constructor | done |].
    intros Hflag. by specialize (Hf Hflag).
  - injection E as -> ->. apply Forall_cons in Hn as [_ Hn].
    by exists names, ups.
Qed.

Lemma push_segment_kept flag res seg :
  slash ∉ seg → kept flag res → kept flag (push_segment flag res seg).
Proof.
  intros Hs Hres. unfold push_segment.
  destruct (decide (seg = [])); [done|].
  destruct (decide (seg = lit ".")); [done|].
  pose proof Hres as [Hall (names & ups & E & Hn & Hu & Hf)].
  destruct (decide (seg = lit "..")) as [->|Hup].
  - destruct res as [|last rest].
    + destruct flag; [|done]. split; [by repeat constructor|].
      exists [], [lit ".."]. by repeat constructor.
    + destruct (decide (last = lit "..")) as [->|Hlast];
        [|by eapply kept_tail].
      destruct flag; [|done]. split; [by constructor|].
      destruct names as [|nm names].
      * simpl in E. subst ups. exists [], (lit ".." :: lit ".." :: rest).
        split_and!; [done | constructor | by constructor | done].
      * injection E as <- ->. by apply Forall_cons in Hn as [? _].
  - split; [by constructor|]. exists (seg :: names), ups.
    split_and!; [by rewrite E | by constructor | done | done].
Qed.

Lemma fold_push_kept flag segs res :
  Forall (λ seg, slash ∉ seg) segs → kept flag res →
  kept flag (fold_left (push_segment flag) segs res).
Proof.
  intros Hsegs. revert res.
  induction Hsegs as [|seg segs Hseg _ IH]; intros res Hres; [done|].
  simpl. by apply IH, push_segment_kept.
Qed.

(** Kept segments are kept again, as they are. *)
Lemma repush flag res :
  kept flag res → fold_left (push_segment flag) (reverse res) [] = res.
Proof.
  induction res as [|seg res IH]; intros Hres; [done|].
  rewrite reverse_cons, fold_left_app. simpl.
  rewrite IH by (by eapply kept_tail).
  destruct Hres as [Hall (names & ups & E & Hn & Hu & Hf)].
  apply Forall_cons in Hall as [(Hne & Hdot & _) _].
  unfold push_segment. rewrite !decide_False by done.
  destruct (decide (seg = lit "..")) as [->|Hup]; [|done].
  destruct names as [|nm names];
    [|injection E as <- ->; by apply Forall_cons in Hn as [? _]].
  simpl in E. subst ups. apply Forall_cons in Hu as [_ Hu].
  destruct flag; [|by specialize (Hf eq_refl)].
  destruct res as [|last rest]; [done|].
  apply Forall_cons in Hu as [-> _]. by rewrite decide_True.
Qed.

Lemma join_dirs_snoc segs seg :
  join_dirs (segs ++ [seg]) = join_dirs segs ++ seg ++ [slash].
Proof.
  unfold join_dirs. rewrite fmap_app, concat_app. simpl. by rewrite app_nil_r.
Qed.

Lemma split_slash_join_dirs segs b :
  Forall (λ seg, slash ∉ seg) segs → slash ∉ b →
  split_slash (join_dirs segs ++ b) = segs ++ [b].
Proof.
  intros Hsegs Hb. induction Hsegs as [|seg segs Hseg _ IH].
  - by apply split_slash_plain.
  - unfold join_dirs in *. rewrite fmap_cons. simpl concat.
    rewrite <- !app_assoc. simpl. rewrite split_slash_app, IH.
    by rewrite split_slash_plain.
Qed.

Lemma join_dirs_head segs b c rest :
  Forall (λ seg, seg ≠ [] ∧ seg ≠ lit "." ∧ slash ∉ seg) segs →
  slash ∉ b → join_dirs segs ++ b = c :: rest → c ≠ slash.
Proof.
  intros Hsegs Hb E. destruct Hsegs as [|seg segs (Hne & _ & Hs) _].
  - simpl in E. subst b. by apply not_elem_of_cons in Hb as [? _].
  - unfold join_dirs in E. rewrite fmap_cons in E. simpl in E.
    destruct seg as [|x seg]; [done|]. simpl in E. injection E as -> _.
    by apply not_elem_of_cons in Hs as [? _].
Qed.

(** After [tempDir], [path.join] puts a slash and the name. *)
Lemma join_prefix_tempDir d : join_prefix (tempDir d) = tempDir d ++ [slash].
Proof.
  rewrite tempDir_eq.
  assert (slash ∉ lit "temp") as Htemp by compute_done.
  assert (plain (lit "temp")) as Hplain by solve_plain.
  destruct d as [|c d].
  - vm_compute. reflexivity.
  - unfold join_prefix at 2.
    set (flag := negb (c =? slash)).
    set (res := fold_left (push_segment flag) (split_slash (c :: d)) []).
    assert (kept flag res) as Hres
      by (apply fold_push_kept; [apply split_slash_segments | apply kept_nil]).
    pose proof Hres as [Hall _].
    assert (Forall (λ seg, slash ∉ seg) (reverse res)) as Hrev.
    { apply Forall_reverse. eapply Forall_impl; [exact Hall|]. by intros ? (_ & _ & ?). }
    assert (Forall (λ seg, seg ≠ [] ∧ seg ≠ lit "." ∧ slash ∉ seg) (reverse res))
      as Hrev' by (by apply Forall_reverse).
    destruct (N.eqb_spec c slash) as [->|Hc]; subst flag; cbn [negb] in *.
    + cbn [app]. unfold join_prefix. rewrite N.eqb_refl. cbn [negb].
      cbn [split_slash]. rewrite N.eqb_refl.
      rewrite split_slash_join_dirs by done.
      cbn [fold_left]. unfold push_segment at 2. rewrite decide_True by done.
      rewrite fold_left_app, repush by done. cbn [fold_left].
      rewrite push_segment_plain by done.
      rewrite reverse_cons, join_dirs_snoc. rewrite <- ?app_assoc. reflexivity.
    + cbn [app].
      destruct (join_dirs (reverse res) ++ lit "temp") as [|x rest] eqn:E.
      { apply app_eq_nil in E as [_ E]. by vm_compute in E. }
      pose proof (join_dirs_head _ _ _ _ Hrev' Htemp E) as Hx.
      unfold join_prefix. rewrite (proj2 (N.eqb_neq x slash)) by done.
      cbn [negb]. rewrite <- E.
      rewrite split_slash_join_dirs by done.
      rewrite fold_left_app, repush by done. cbn [fold_left].
      rewrite push_segment_plain by done.
      rewrite reverse_cons, join_dirs_snoc. rewrite <- ?app_assoc.
      rewrite (proj2 (N.eqb_neq c slash)) by done. reflexivity.
Qed.

End MorePathProperties.

Section MoreHandlerPaths.

Variable __dirname : jsstring.

(** X12. Whatever the directory of the server, also one that [path.join]
    has to normalize, every file the handler names lies directly in
    [tempDir]: its path is [tempDir], a slash, and the fixed name. *)
Theorem handler_files_lie_in_tempDir :
  source_paths __dirname
  = (λ name, tempDir __dirname ++ slash :: name) <$> source_names
  ∧ ∀ r fs fs' cmd opts file exe,
      execute_handler __dirname r fs = (fs', inr (ExecCalled cmd opts file exe)) →
      (∃ name, name ∈ source_names
               ∧ file = tempDir __dirname ++ slash :: name)
      ∧ ∀ e, exe = Some e →
             e = tempDir __dirname ++ slash :: lit "temp_executable".
Proof.
  assert (∀ name, plain name →
            path_join (tempDir __dirname) name
            = tempDir __dirname ++ slash :: name) as Hjoin.
  { intros name Hname. rewrite path_join_plain by done.
    rewrite join_prefix_tempDir. by rewrite <- app_assoc. }
  assert (source_paths __dirname
          = (λ name, tempDir __dirname ++ slash :: name) <$> source_names) as Hsrc.
  { unfold source_paths, source_names. cbn [fmap list_fmap].
    by rewrite !Hjoin by solve_plain. }
  split; [exact Hsrc|].
  intros r fs fs' cmd opts file exe H. split.
  - apply exec_called_paths in H as [Hfile _]. rewrite Hsrc in Hfile.
    apply list_elem_of_fmap in Hfile as (name & -> & Hname). by exists name.
  - intros e He. apply exec_called_cases in H.
    rewrite <- Hjoin by solve_plain.
    destruct H as [(_ & _ & ->)|[(_ & _ & ->)|[(_ & _ & ->)|(_ & _ & ->)]]];
      by simplify_eq.
Qed.

End MoreHandlerPaths.

(** * The further properties on the server in [/app] *)

Lemma sources_free_empty : sources_free app_dir empty_fs.
Proof. intros p _. apply not_elem_of_empty. Qed.

Lemma handler_paths_are_distinct_witness :
  lit "/app/temp/temp.py" ∈ source_paths app_dir
  ∧ lit "/app/temp/temp.py" ≠ tempDir app_dir.
Proof.
  assert (∃ fs', execute_handler app_dir hostile_request (disk fresh_server)
                 = (fs', inr (ExecCalled (lit "python3 /app/temp/temp.py")
                                default_exec_options (lit "/app/temp/temp.py") None)))
    as [fs' E] by (eexists; vm_compute; reflexivity).
  destruct (handler_paths_are_distinct app_dir) as [_ H].
  destruct (H _ _ _ _ _ _ _ E) as (H1 & H2 & _). by split.
Defined.

Lemma startup_makes_tempDir_once_witness :
  ∃ fs', startup app_dir empty_fs = (fs', inr ())
         ∧ dirs fs' = {[tempDir app_dir]} ∪ dirs empty_fs.
Proof.
  destruct (startup_makes_tempDir_once app_dir empty_fs)
    as (fs' & E & _ & _ & Hd & _).
  exists fs'. split; [exact E|]. apply Hd; compute_done.
Defined.

Lemma non_string_code_is_answered_500_witness :
  execute_handler app_dir numeric_request (disk fresh_server)
  = (disk fresh_server, inl ERR_INVALID_ARG_TYPE)
  ∧ in_flight (step app_dir fresh_server (Arrive numeric_request)) = [].
Proof.
  destruct (non_string_code_is_answered_500 app_dir numeric_request fresh_server)
    as (E & _ & Hfl & _).
  - unfold supported. compute_done.
  - intros src. discriminate.
  - vm_compute. reflexivity.
  - split; [exact E|]. rewrite Hfl. reflexivity.
Defined.

Lemma callback_removes_source_and_executable_witness :
  let fs := disk (run app_dir fresh_server [Arrive c_request; c_compiled]) in
  ∃ fs' res,
    exec_callback (lit "/app/temp/temp.c") (Some (lit "/app/temp/temp_executable"))
      (exited_ok "") fs = (fs', inr res)
    ∧ files fs' !! lit "/app/temp/temp.c" = None
    ∧ files fs' !! lit "/app/temp/temp_executable" = None.
Proof.
  intros fs.
  destruct (callback_removes_source_and_executable (lit "/app/temp/temp.c")
              (Some (lit "/app/temp/temp_executable")) (exited_ok "") fs)
    as (fs' & res & E & _ & H).
  - compute_done.
  - intros e [= <-]. split; compute_done.
  - exists fs', res. split; [exact E|]. split.
    + rewrite H. by rewrite decide_True by (by left).
    + rewrite H. by rewrite decide_True by (by right).
Defined.

Lemma no_request_is_answered_twice_witness :
  (length (answers (run app_dir fresh_server
                      [Arrive request_a; Arrive request_b;
                       ChildExit 0 (exited_ok "A")]) 0) ≤ 1)%nat.
Proof.
  apply (no_request_is_answered_twice app_dir empty_fs
           [Arrive request_a; Arrive request_b; ChildExit 0 (exited_ok "A")] 0%nat).
Defined.

Lemma running_server_drops_no_request_witness :
  let s := run app_dir fresh_server
             [Arrive request_a; Arrive request_b; ChildExit 0 (exited_ok "A")] in
  answers s 1 ≠ [] ∨ 1%nat ∈ flying s.
Proof.
  apply (running_server_drops_no_request app_dir empty_fs
           [Arrive request_a; Arrive request_b; ChildExit 0 (exited_ok "A")] 1%nat).
  - vm_compute. reflexivity.
  - vm_compute. lia.
Defined.

Lemma every_answer_has_a_known_shape_witness :
  answer_shape {| status := 200; body := OutputBody true |}.
Proof.
  apply (every_answer_has_a_known_shape app_dir empty_fs java_run 0%nat).
  vm_compute. left.
Defined.

Lemma server_touches_only_its_files_witness :
  let s := run app_dir fresh_server java_run in
  files (disk (run app_dir s [Arrive java_request; ChildExit 1 (exited_with 1 "")]))
    !! lit "/app/temp/Temp.class"
  = files (disk s) !! lit "/app/temp/Temp.class".
Proof.
  apply (server_touches_only_its_files app_dir empty_fs java_run
           [Arrive java_request; ChildExit 1 (exited_with 1 "")]
           (lit "/app/temp/Temp.class")).
  - compute_done.
  - intros c H. repeat (apply elem_of_cons in H as [H|H]; [discriminate H|]).
    by apply elem_of_nil in H.
Defined.

Lemma second_exit_in_same_language_ends_the_server_witness :
  let s := run app_dir fresh_server
             [ Arrive request_a; Arrive request_b;
               ChildExit 1 (exited_ok "B"); ChildExit 0 (exited_ok "A") ] in
  running s = false ∧ length (answers s 1) = 1%nat ∧ answers s 0 = [].
Proof.
  apply (second_exit_in_same_language_ends_the_server app_dir empty_fs []
           request_a request_b (exited_ok "B") (exited_ok "A") 1%nat 0%nat).
  - apply sources_free_empty.
  - vm_compute. reflexivity.
  - apply runnable_submit_python.
  - apply runnable_submit_python.
  - reflexivity.
  - right. split; vm_compute; reflexivity.
Defined.

Lemma lone_request_leaves_disk_as_found_witness :
  let s := run app_dir fresh_server
             [Arrive c_request; c_compiled; ChildExit 0 (exited_ok "")] in
  disk s = disk fresh_server ∧ in_flight s = [] ∧ running s = true.
Proof.
  assert (∃ fs' cmd,
            execute_handler app_dir c_request (disk fresh_server)
            = (fs', inr (ExecCalled cmd default_exec_options
                           (lit "/app/temp/temp.c")
                           (Some (lit "/app/temp/temp_executable")))))
    as (fs' & cmd & E) by (do 2 eexists; vm_compute; reflexivity).
  destruct (lone_request_leaves_disk_as_found app_dir empty_fs [] [c_compiled]
              c_request (exited_ok "") _ _ _ _ _ sources_free_empty eq_refl E)
    as (Hd & Hfl & Hrun & _).
  - compute_done.
  - intros e [= <-]. compute_done.
  - repeat constructor. do 2 eexists. split; [reflexivity|]. by right.
  - split_and!; [exact Hd | exact Hfl | exact Hrun].
Defined.

Lemma handler_files_lie_in_tempDir_witness :
  ∃ name, name ∈ source_names
          ∧ lit "/app/temp/temp.py" = tempDir app_dir ++ slash :: name.
Proof.
  assert (∃ fs', execute_handler app_dir hostile_request (disk fresh_server)
                 = (fs', inr (ExecCalled (lit "python3 /app/temp/temp.py")
                                default_exec_options (lit "/app/temp/temp.py") None)))
    as [fs' E] by (eexists; vm_compute; reflexivity).
  destruct (handler_files_lie_in_tempDir app_dir) as [_ H].
  by destruct (H _ _ _ _ _ _ _ E) as [Hname _].
Defined.
